(** * gitlab-mr-stats: a shallow embedding of src/src/index.ts

    The synchronisation engine (paginated fetch of merge requests and of
    their notes, the change-detection loop of
    [processAndStoreMergeRequests], the SQLite upsert and point lookup) and
    the two analytics queries ([getMergeRequestStats],
    [countMrsWithLateFirstComment]). *)

From Stdlib Require Import ZArith QArith Qround Qfield List String Ascii Bool Lia Lqa.
From stdpp Require Import base gmap.
Import ListNotations.
Open Scope Z_scope.

(* ================================================================== *)
(** ** HTTP responses and JavaScript numbers *)

(** The value of a response header as the client sees it:
    [response.headers.get(...)] returns [null] when the header is absent,
    otherwise a string that [Number] turns into an integer or NaN. *)
Inductive header :=
| HAbsent
| HNumeric (z : Z)
| HNonNumeric.

(** A JavaScript number as far as the page counters need it. *)
Inductive jsnum :=
| NaN
| Num (z : Z).

(** [Number(h || '0')] (fetchMergeRequests): a missing header becomes the
    string '0'. *)
Definition number_or_0 (h : header) : jsnum :=
  match h with
  | HAbsent => Num 0
  | HNumeric z => Num z
  | HNonNumeric => NaN
  end.

(** [Number(h) || 1] (fetchMergeRequestDetails): [Number(null)] is 0 and
    both 0 and NaN are falsy, so they become 1. *)
Definition number_or_1 (h : header) : Z :=
  match h with
  | HNumeric z => if Z.eqb z 0 then 1 else z
  | _ => 1
  end.

(** [x > y] and [x < y] with NaN on either side are false. *)
Definition js_gt (x : jsnum) (y : Z) : bool :=
  match x with NaN => false | Num z => Z.ltb y z end.
Definition js_lt (x : Z) (y : jsnum) : bool :=
  match y with NaN => false | Num z => Z.ltb x z end.

(** One page as returned by [api.get(...)] and [response.json()]. *)
Record response (A : Type) := mkResponse {
  body : list A;
  x_total_pages : header
}.
Arguments mkResponse {A}.
Arguments body {A}.
Arguments x_total_pages {A}.

(** A paginated endpoint: the response for a page index, [None] when the
    request (after ky's retries) or the JSON decoding throws. *)
Definition endpoint (A : Type) := Z -> option (response A).

(** How a [while] loop inside a [try] ends: normally with a value, by an
    exception caught by the surrounding [catch], or not within the fuel. *)
Inductive loop_result (A : Type) :=
| LDone (l : list A)
| LThrow
| LOutOfFuel.
Arguments LDone {A}.
Arguments LThrow {A}.
Arguments LOutOfFuel {A}.

(** [per_page: '100']. *)
Definition per_page : nat := 100.

(* ================================================================== *)
(** ** fetchMergeRequests (index.ts, lines 59-111) *)

Section Pagination.
Context {A : Type}.

(** The [while (hasMorePages)] loop; [page] and [allMergeRequests] are the
    loop variables. *)
Fixpoint mr_loop (api : endpoint A) (fuel : nat) (page : Z) (acc : list A)
  : loop_result A :=
  match fuel with
  | O => LOutOfFuel
  | S fuel' =>
      match api page with
      | None => LThrow
      | Some resp =>
          let mergeRequests := body resp in
          match mergeRequests with
          | [] => LDone acc
          | _ =>
              let acc' := acc ++ mergeRequests in
              let totalPages := number_or_0 (x_total_pages resp) in
              let hasMorePages :=
                (js_gt totalPages 0 && js_lt page totalPages)
                || Nat.eqb (length mergeRequests) per_page in
              if hasMorePages then mr_loop api fuel' (page + 1) acc'
              else LDone acc'
          end
      end
  end.

(** The whole function: the [catch] returns [[]]; [None] means the loop did
    not stop within [fuel] iterations. *)
Definition fetchMergeRequests (api : endpoint A) (fuel : nat)
  : option (list A) :=
  match mr_loop api fuel 1 [] with
  | LDone l => Some l
  | LThrow => Some []
  | LOutOfFuel => None
  end.

(* ================================================================== *)
(** ** The notes loop of fetchMergeRequestDetails (index.ts, 117-143) *)

Fixpoint notes_loop (api : endpoint A) (fuel : nat) (page : Z) (acc : list A)
  : loop_result A :=
  match fuel with
  | O => LOutOfFuel
  | S fuel' =>
      match api page with
      | None => LThrow
      | Some resp =>
          let totalPages := number_or_1 (x_total_pages resp) in
          let notes := body resp in
          let acc' := acc ++ notes in
          if Z.ltb page totalPages then notes_loop api fuel' (page + 1) acc'
          else LDone acc'
      end
  end.

End Pagination.

(* ================================================================== *)
(** ** Notes, approval events and fetchMergeRequestDetails *)

(** A GitLab note: [created_at] and the [system] flag. *)
Record Note := mkNote {
  note_created_at : string;
  note_system : bool
}.

(** A resource approval event: only [created_at] is read. *)
Record ApprovalEvent := mkApprovalEvent {
  ev_created_at : string
}.

(** The object [{ notes, approvalEvents }] returned by
    [fetchMergeRequestDetails]. *)
Record Details := mkDetails {
  notes : list Note;
  approvalEvents : list ApprovalEvent
}.

(** [fetchMergeRequestDetails]: the notes loop, then the approval-events
    request whose failure is absorbed by [.catch(() => [])]; an exception of
    the notes loop is caught and yields empty details. *)
Definition fetchMergeRequestDetails (notes_api : endpoint Note)
    (approvals_api : option (list ApprovalEvent)) (fuel : nat)
  : option Details :=
  match notes_loop notes_api fuel 1 [] with
  | LDone allNotes =>
      let approvalEvents :=
        match approvals_api with Some evs => evs | None => [] end in
      Some (mkDetails allNotes approvalEvents)
  | LThrow => Some (mkDetails [] [])
  | LOutOfFuel => None
  end.

(* ================================================================== *)
(** ** Derived timestamps (index.ts, lines 212-236) *)

Section Derive.

(** [new Date(s).getTime()] on the timestamps GitLab returns. *)
Variable getTime : string -> Z.

(** [Array.prototype.sort] with the comparator
    [(a, b) => key a - key b]: a stable sort by ascending key, written as an
    insertion sort (an element is placed before the first one whose key is
    not smaller, so equal keys keep their original order). *)
Section Sort.
Context {B : Type} (key : B -> Z).

Fixpoint insert_by (x : B) (l : list B) : list B :=
  match l with
  | [] => [x]
  | y :: l' => if Z.leb (key x) (key y) then x :: l else y :: insert_by x l'
  end.

Fixpoint sort_by (l : list B) : list B :=
  match l with
  | [] => []
  | x :: l' => insert_by x (sort_by l')
  end.

End Sort.

(** [firstComment] *)
Definition first_comment (d : Details) : option string :=
  match notes d with
  | [] => None
  | _ =>
      let userNotes := List.filter (fun n => negb (note_system n)) (notes d) in
      match sort_by (fun n => getTime (note_created_at n)) userNotes with
      | [] => None
      | n :: _ => Some (note_created_at n)
      end
  end.

(** [approvedAt] *)
Definition approved_at_of (d : Details) : option string :=
  match approvalEvents d with
  | [] => None
  | evs =>
      match sort_by (fun e => getTime (ev_created_at e)) evs with
      | [] => None
      | e :: _ => Some (ev_created_at e)
      end
  end.

End Derive.

(* ================================================================== *)
(** ** Records: the remote merge request and the stored row *)

(** The fields of a GitLab merge request that the sync reads. *)
Record RemoteMR := mkRemoteMR {
  mr_id : Z;
  mr_iid : Z;
  mr_title : string;
  mr_created_at : string;
  mr_updated_at : string;
  mr_state : string;
  mr_author_id : Z;
  mr_author_username : string;
  mr_merged_at : option string
}.

(** [MergeRequestData], i.e. a row of the [merge_requests] table (with the
    [squad] and [description] columns added by [initDatabase]);
    [None] is SQL NULL (and a JavaScript [undefined] or [null] bound to a
    parameter). *)
Record MergeRequestData := mkMergeRequestData {
  id : Z;
  project_id : Z;
  title : string;
  description : option string;
  created_at : string;
  updated_at : string;
  state : string;
  author_id : Z;
  author_username : string;
  first_comment_at : option string;
  approved_at : option string;
  merged_at : option string;
  squad : option string
}.

(** A row of the [projects] table. *)
Record Project := mkProject {
  p_id : Z;
  p_name : string;
  p_path_with_namespace : string;
  p_created_at : string
}.

(** The statements [db.run] executes, so that a failing write can be
    singled out. *)
Inductive SqlWrite :=
| WProject (p : Project)
| WMergeRequest (r : MergeRequestData).

(** A rejected promise of the store. *)
Inductive DbError := SqliteError.

(* ================================================================== *)
(** ** The sync state and its monad *)

(** The database (both tables, the merge requests keyed by the primary key
    [(id, project_id)]), the log of calls to the Detail Enricher and the
    three counters of [processAndStoreMergeRequests]. *)
Record St := mkSt {
  db_projects : gmap Z Project;
  db_merge_requests : gmap (Z * Z) MergeRequestData;
  details_calls : list (Z * Z);
  skippedCount : nat;
  updatedCount : nat;
  newCount : nat
}.

(** An async function: it reads and updates the state and either resolves
    with a value or rejects with a store error. *)
Definition M (X : Type) : Type := St -> (DbError + X) * St.

#[global] Instance M_ret : MRet M := fun X x st => (inr x, st).
#[global] Instance M_bind : MBind M := fun X Y k c st =>
  match c st with
  | (inl e, st') => (inl e, st')
  | (inr x, st') => k x st'
  end.

Definition modify (f : St -> St) : M unit := fun st => (inr tt, f st).

Definition set_db_mrs (m : gmap (Z * Z) MergeRequestData) (st : St) : St :=
  mkSt (db_projects st) m (details_calls st)
       (skippedCount st) (updatedCount st) (newCount st).
Definition set_db_projects (m : gmap Z Project) (st : St) : St :=
  mkSt m (db_merge_requests st) (details_calls st)
       (skippedCount st) (updatedCount st) (newCount st).
Definition log_details_call (c : Z * Z) (st : St) : St :=
  mkSt (db_projects st) (db_merge_requests st) (details_calls st ++ [c])
       (skippedCount st) (updatedCount st) (newCount st).
Definition incr_skipped (st : St) : St :=
  mkSt (db_projects st) (db_merge_requests st) (details_calls st)
       (S (skippedCount st)) (updatedCount st) (newCount st).
Definition incr_updated (st : St) : St :=
  mkSt (db_projects st) (db_merge_requests st) (details_calls st)
       (skippedCount st) (S (updatedCount st)) (newCount st).
Definition incr_new (st : St) : St :=
  mkSt (db_projects st) (db_merge_requests st) (details_calls st)
       (skippedCount st) (updatedCount st) (S (newCount st)).

(* ================================================================== *)
(** ** The store functions and processAndStoreMergeRequests *)

Section Sync.

(** Whether [db.get] for the point lookup of [(projectId, mrId)] rejects. *)
Variable get_fails : Z -> Z -> bool.
(** Whether [db.run] of a write rejects (constraint violation, I/O). *)
Variable run_fails : SqlWrite -> bool.
(** What [fetchMergeRequestDetails(projectId, mrIid)] resolves with. *)
Variable details_of : Z -> Z -> Details.
(** [new Date(s).getTime()]. *)
Variable getTime : string -> Z.

(** [saveProject]: INSERT OR REPLACE INTO projects. *)
Definition saveProject (p : Project) : M unit := fun st =>
  if run_fails (WProject p) then (inl SqliteError, st)
  else (inr tt, set_db_projects (<[p_id p := p]> (db_projects st)) st).

(** [saveMergeRequest]: INSERT OR REPLACE INTO merge_requests, all thirteen
    columns taken from [mr]; the rejection is not caught. *)
Definition saveMergeRequest (mr : MergeRequestData) : M unit := fun st =>
  if run_fails (WMergeRequest mr) then (inl SqliteError, st)
  else (inr tt,
        set_db_mrs (<[(id mr, project_id mr) := mr]> (db_merge_requests st)) st).

(** [getMergeRequest]: [SELECT * ... WHERE project_id = ? AND id = ?];
    [mr || null]; the [catch] turns a rejection into [null]. *)
Definition getMergeRequest (projectId mrId : Z) : M (option MergeRequestData) :=
  fun st =>
    if get_fails projectId mrId then (inr None, st)
    else (inr (db_merge_requests st !! (mrId, projectId)), st).

(** The call [await fetchMergeRequestDetails(projectId, mr.iid)]. *)
Definition fetch_details (projectId mrIid : Z) : M Details := fun st =>
  (inr (details_of projectId mrIid), log_details_call (projectId, mrIid) st).

(** The object literal [mrData]: [squad] and [description] are not set,
    so they are [undefined] and bound as NULL. *)
Definition build_mrData (projectId : Z) (mr : RemoteMR)
    (firstComment approvedAt : option string) : MergeRequestData :=
  {| id := mr_id mr;
     project_id := projectId;
     title := mr_title mr;
     description := None;
     created_at := mr_created_at mr;
     updated_at := mr_updated_at mr;
     state := mr_state mr;
     author_id := mr_author_id mr;
     author_username := mr_author_username mr;
     first_comment_at := firstComment;
     approved_at := approvedAt;
     merged_at := mr_merged_at mr;
     squad := None |}.

(** Lines 209-253: fetch details, derive the two timestamps, save. *)
Definition enrich_and_save (projectId : Z) (mr : RemoteMR) : M unit :=
  details ← fetch_details projectId (mr_iid mr);
  let firstComment := first_comment getTime details in
  let approvedAt := approved_at_of getTime details in
  saveMergeRequest (build_mrData projectId mr firstComment approvedAt).

(** One iteration of [for (const mr of mergeRequests)]. *)
Definition process_one (projectId : Z) (mr : RemoteMR) : M unit :=
  existingMR ← getMergeRequest projectId (mr_id mr);
  match existingMR with
  | Some e =>
      if String.eqb (mr_state mr) "merged" && String.eqb (state e) "merged"
      then modify incr_skipped
      else
        let needsUpdate :=
          negb (String.eqb (updated_at e) (mr_updated_at mr))
          || negb (String.eqb (state e) (mr_state mr)) in
        if negb needsUpdate then modify incr_skipped
        else (modify incr_updated ;; enrich_and_save projectId mr)
  | None => modify incr_new ;; enrich_and_save projectId mr
  end.

(** The [for ... of] loop: an uncaught rejection leaves it. *)
Fixpoint process_batch (projectId : Z) (mrs : list RemoteMR) : M unit :=
  match mrs with
  | [] => mret tt
  | mr :: rest => process_one projectId mr ;; process_batch projectId rest
  end.

(** [processAndStoreMergeRequests], given the sequence [fetchMergeRequests]
    resolved with. *)
Definition processAndStoreMergeRequests (projectId : Z) (project : Project)
    (mergeRequests : list RemoteMR) : M unit :=
  match mergeRequests with
  | [] => mret tt
  | _ => saveProject project ;; process_batch projectId mergeRequests
  end.

End Sync.

(* ================================================================== *)
(** ** The analytics queries (index.ts, lines 611-701) *)

Open Scope Q_scope.

(** A TEXT comparison under SQLite's BINARY collation: byte by byte, a
    proper prefix sorting first. *)
Definition sql_text_ge (a b : string) : bool :=
  match String.compare a b with Lt => false | _ => true end.
Definition sql_text_le (a b : string) : bool :=
  match String.compare a b with Gt => false | _ => true end.

(** [if (startDate)]: [undefined] and the empty string are falsy. *)
Definition truthy (s : option string) : option string :=
  match s with
  | Some v => if String.eqb v "" then None else Some v
  | None => None
  end.

Definition is_some {X : Type} (o : option X) : bool :=
  match o with Some _ => true | None => false end.

(** The date part of the WHERE clause: [created_at >= ?] and
    [created_at <= ?], each only when the bound is given. *)
Definition date_filter (startDate endDate : option string)
    (r : MergeRequestData) : bool :=
  match truthy startDate with
  | Some s => sql_text_ge (created_at r) s
  | None => true
  end &&
  match truthy endDate with
  | Some e => sql_text_le (created_at r) e
  | None => true
  end.

(** One output row of [getMergeRequestStats]. *)
Record StatsRow := mkStatsRow {
  sr_squad : string;
  sr_total_mrs : nat;
  sr_merged_mrs : nat;
  sr_avg_time_to_first_comment : option Q;
  sr_avg_time_to_approval : option Q;
  sr_avg_time_to_merge : option Q
}.

(** The values of the non-NULL entries, in order. *)
Fixpoint somes {X : Type} (l : list (option X)) : list X :=
  match l with
  | [] => []
  | Some x :: l' => x :: somes l'
  | None :: l' => somes l'
  end.

Definition Qsum (l : list Q) : Q := fold_right Qplus 0 l.

(** SQL [AVG]: NULL inputs are ignored; NULL when no input is left.
    The double arithmetic of SQLite is idealised to exact rationals. *)
Definition sql_avg (l : list (option Q)) : option Q :=
  match somes l with
  | [] => None
  | xs => Some (Qsum xs / inject_Z (Z.of_nat (length xs)))
  end.

(** The distinct values of the GROUP BY key among the selected rows; the
    groups come out in an order the statement leaves unspecified. *)
Definition distinct_squads (rows : list MergeRequestData) : list string :=
  nodup string_dec
    (flat_map (fun r => match squad r with Some s => [s] | None => [] end) rows).

Definition rows_of_squad (s : string) (rows : list MergeRequestData)
  : list MergeRequestData :=
  List.filter (fun r => match squad r with
                   | Some s' => String.eqb s' s
                   | None => false end) rows.

Section Analytics.

(** [strftime('%s', t)]: the Unix time of a timestamp text in whole
    seconds, NULL when the text is not a date. *)
Variable strftime_s : string -> option Z.

(** [CASE WHEN ts IS NOT NULL
          THEN (strftime('%s', ts) - strftime('%s', created_at)) / 60.0
          ELSE NULL END] *)
Definition case_minutes (ts : option string) (createdAt : string) : option Q :=
  match ts with
  | None => None
  | Some t =>
      match strftime_s t, strftime_s createdAt with
      | Some a, Some b => Some (inject_Z (a - b) / 60)
      | _, _ => None
      end
  end.

(** [project_id = ? AND state != "closed" AND squad IS NOT NULL] and the
    date bounds. *)
Definition stats_where (projectId : Z) (startDate endDate : option string)
    (r : MergeRequestData) : bool :=
  Z.eqb (project_id r) projectId
  && negb (String.eqb (state r) "closed")
  && is_some (squad r)
  && date_filter startDate endDate r.

(** The aggregates of one group. *)
Definition stats_row (s : string) (g : list MergeRequestData) : StatsRow :=
  {| sr_squad := s;
     sr_total_mrs := length g;
     sr_merged_mrs := length (List.filter (fun r => String.eqb (state r) "merged") g);
     sr_avg_time_to_first_comment :=
       sql_avg (map (fun r => case_minutes (first_comment_at r) (created_at r)) g);
     sr_avg_time_to_approval :=
       sql_avg (map (fun r => case_minutes (approved_at r) (created_at r)) g);
     sr_avg_time_to_merge :=
       sql_avg (map (fun r => case_minutes (merged_at r) (created_at r)) g) |}.

(** [getMergeRequestStats] over the rows of [merge_requests]. *)
Definition getMergeRequestStats (projectId : Z) (startDate endDate : option string)
    (table : list MergeRequestData) : list StatsRow :=
  let selected := List.filter (stats_where projectId startDate endDate) table in
  map (fun s => stats_row s (rows_of_squad s selected)) (distinct_squads selected).

(** [(strftime(...) - strftime(...)) / 60.0 > ?]: a NULL comparison is not
    true. *)
Definition late_predicate (thresholdMinutes : Q) (r : MergeRequestData) : bool :=
  match case_minutes (first_comment_at r) (created_at r) with
  | Some m => negb (Qle_bool m thresholdMinutes)
  | None => false
  end.

Definition late_where (projectId : Z) (thresholdMinutes : Q)
    (startDate endDate : option string) (r : MergeRequestData) : bool :=
  Z.eqb (project_id r) projectId
  && negb (String.eqb (state r) "closed")
  && is_some (first_comment_at r)
  && is_some (squad r)
  && date_filter startDate endDate r
  && late_predicate thresholdMinutes r.

(** [countMrsWithLateFirstComment]: [(squad, COUNT( * ))] per group. *)
Definition countMrsWithLateFirstComment (projectId : Z) (thresholdMinutes : Q)
    (startDate endDate : option string) (table : list MergeRequestData)
  : list (string * nat) :=
  let selected :=
    List.filter (late_where projectId thresholdMinutes startDate endDate) table in
  map (fun s => (s, length (rows_of_squad s selected))) (distinct_squads selected).

End Analytics.

Close Scope Q_scope.

(* ================================================================== *)
(** * Properties *)

(** ** Pagination *)

Section PaginationProps.
Context {A : Type}.

(** A collection served page by page with the requested page size: page
    [p] holds the items [(p-1)*100 .. p*100-1]; the [x-total-pages] header
    of each page is whatever [hdr] says (possibly absent or wrong). *)
Definition served (coll : list A) (hdr : Z -> header) : endpoint A :=
  fun page =>
    Some (mkResponse
            (firstn per_page (skipn (Z.to_nat (page - 1) * per_page) coll))
            (hdr page)).

Lemma firstn_plus (n m : nat) (l : list A) :
  firstn (n + m) l = firstn n l ++ firstn m (skipn n l).
Proof.
  revert l; induction n as [|n IH]; intros l; [reflexivity|].
  destruct l as [|x l]; simpl.
  - now rewrite firstn_nil.
  - now rewrite IH.
Qed.

Lemma firstn_nil_inv (n : nat) (l : list A) :
  firstn (S n) l = [] -> l = [].
Proof. destruct l; simpl; congruence. Qed.

Lemma ceil_step (L fuel : nat) :
  (1 <= L)%nat -> ((L + 99) / 100 + 1 <= S fuel)%nat ->
  ((L - 100 + 99) / 100 + 1 <= fuel)%nat.
Proof.
  intros H1 H0.
  destruct (Compare_dec.le_gt_dec 100 L).
  - replace (L + 99)%nat with (1 * 100 + (L - 100 + 99))%nat in H0 by lia.
    rewrite Nat.div_add_l in H0 by lia. lia.
  - replace (L - 100 + 99)%nat with 99%nat by lia. simpl.
    assert (1 <= (L + 99) / 100)%nat by (apply Nat.div_le_lower_bound; lia).
    lia.
Qed.

Lemma mr_loop_served (coll : list A) (hdr : Z -> header) :
  forall fuel n acc,
    acc = firstn (n * per_page) coll ->
    ((length (skipn (n * per_page) coll) + 99) / per_page + 1 <= fuel)%nat ->
    mr_loop (served coll hdr) fuel (Z.of_nat n + 1) acc = LDone coll.
Proof.
  induction fuel as [|fuel IH]; intros n acc Hacc Hfuel; [lia|].
  simpl. unfold served.
  replace (Z.to_nat (Z.of_nat n + 1 - 1)) with n by lia.
  set (r := skipn (n * per_page) coll) in *.
  destruct (firstn per_page r) as [|b bs] eqn:Hb; simpl.
  - (* an empty page: everything has been read *)
    apply firstn_nil_inv in Hb. subst acc. f_equal.
    apply firstn_all2. unfold r in Hb.
    pose proof (length_skipn (n * per_page) coll) as Hl.
    rewrite Hb in Hl. simpl in Hl. lia.
  - assert (Hacc' : acc ++ b :: bs = firstn (S n * per_page) coll).
    { rewrite Hacc, <- Hb. unfold r.
      replace (S n * per_page)%nat with (n * per_page + per_page)%nat by lia.
      now rewrite firstn_plus. }
    assert (Hlen : (length (b :: bs) = min per_page (length r))%nat).
    { rewrite <- Hb. apply length_firstn. }
    destruct (_ || _) eqn:Hmore.
    + rewrite Hacc'.
      replace (Z.of_nat n + 1 + 1)%Z with (Z.of_nat (S n) + 1)%Z by lia.
      apply IH; [reflexivity|].
      replace (S n * per_page)%nat with (per_page + n * per_page)%nat by lia.
      rewrite <- skipn_skipn. fold r. rewrite length_skipn.
      unfold per_page in *. apply ceil_step; [cbn [length] in Hlen; lia | exact Hfuel].
    + (* the loop stops on a short page, which is the last one *)
      f_equal. rewrite Hacc'. apply firstn_all2.
      apply orb_false_elim in Hmore as [_ Hshort].
      apply Nat.eqb_neq in Hshort.
      assert (Hr : (length r < per_page)%nat)
        by (cbn [length] in Hlen; unfold per_page in *; lia).
      rewrite <- (firstn_skipn (n * per_page) coll). fold r.
      rewrite length_app, length_firstn. unfold per_page in *. lia.
Qed.

(** An endpoint whose pages [1..k] are full and whose page [k+1] fails. *)
Lemma mr_loop_throws (api : endpoint A) (k : nat) :
  (forall p : nat, (1 <= p <= k)%nat ->
     exists b h, api (Z.of_nat p) = Some (mkResponse b h) /\ length b = per_page) ->
  api (Z.of_nat k + 1)%Z = None ->
  forall fuel n acc, (n <= k)%nat -> (k - n + 1 <= fuel)%nat ->
    mr_loop api fuel (Z.of_nat n + 1) acc = LThrow.
Proof.
  intros Hfull Hfail.
  induction fuel as [|fuel IH]; intros n acc Hn Hfuel; [lia|].
  simpl. destruct (Nat.eq_dec n k) as [->|Hlt].
  - now rewrite Hfail.
  - destruct (Hfull (S n)) as (b & h & Hp & Hl); [lia|].
    replace (Z.of_nat n + 1)%Z with (Z.of_nat (S n)) by lia.
    rewrite Hp. simpl.
    destruct b as [|x b]; [discriminate Hl|].
    rewrite Hl, Nat.eqb_refl, orb_true_r.
    apply (IH (S n)); lia.
Qed.

(** The loop continues past page [p] exactly when the page is non-empty and
    [hasMorePages] holds; if it does so for pages [1..k] and the request of
    page [k+1] fails, the loop ends in the [catch]. *)
Lemma mr_loop_throws_cont (api : endpoint A) (k : nat) :
  (forall p : nat, (1 <= p <= k)%nat ->
     exists b h, api (Z.of_nat p) = Some (mkResponse b h) /\ b <> [] /\
       ((js_gt (number_or_0 h) 0 && js_lt (Z.of_nat p) (number_or_0 h))
        || Nat.eqb (length b) per_page) = true) ->
  api (Z.of_nat k + 1)%Z = None ->
  forall fuel n acc, (n <= k)%nat -> (k - n + 1 <= fuel)%nat ->
    mr_loop api fuel (Z.of_nat n + 1) acc = LThrow.
Proof.
  intros Hcont Hfail.
  induction fuel as [|fuel IH]; intros n acc Hn Hfuel; [lia|].
  cbn [mr_loop]. destruct (Nat.eq_dec n k) as [->|Hlt].
  - now rewrite Hfail.
  - destruct (Hcont (S n)) as (b & h & Hp & Hne & Hmore); [lia|].
    replace (Z.of_nat n + 1)%Z with (Z.of_nat (S n)) by lia.
    rewrite Hp. cbv beta iota zeta delta [body x_total_pages].
    destruct b as [|x b]; [congruence|].
    rewrite Hmore. apply (IH (S n)); lia.
Qed.

End PaginationProps.

(** A 250-item collection. *)
Definition items250 : list nat := seq 0 250.

(** The same collection whose first page is served and whose second page
    request fails. *)
Definition fail_after_first (coll : list nat) : endpoint nat :=
  fun page => if Z.eqb page 1 then served coll (fun _ => HAbsent) page else None.

(** A collection served 100 per page whose requests from page [n] on
    fail. *)
Definition fail_from {A : Type} (n : Z) (coll : list A) (hdr : Z -> header)
  : endpoint A :=
  fun page => if Z.ltb page n then served coll hdr page else None.

(** 150 notes, more than one page. *)
Definition notes150 : list Note :=
  map (fun i => mkNote "2025-01-01T00:00:00Z" (Nat.eqb (i mod 7) 0)) (seq 0 150).

Example mr_walk_250_reported :
  fetchMergeRequests (served items250 (fun _ => HNumeric 3)) 4 = Some items250.
Proof. reflexivity. Qed.

Example mr_walk_250_misreported :
  fetchMergeRequests (served items250 (fun _ => HNumeric 0)) 4 = Some items250.
Proof. reflexivity. Qed.

(** C5: on a collection served with the requested page size of 100, the
    merge-request walk (stop on an empty page, otherwise go on while the
    reported total-page count exceeds the page index or the page was full)
    returns every item in the original order, whatever the
    [x-total-pages] header says, given enough iterations. *)
Theorem fetchMergeRequests_complete {A : Type} (coll : list A)
    (hdr : Z -> header) (fuel : nat) :
  (length coll / per_page + 2 <= fuel)%nat ->
  fetchMergeRequests (served coll hdr) fuel = Some coll.
Proof.
  intros Hfuel. unfold fetchMergeRequests.
  change 1%Z with (Z.of_nat 0 + 1)%Z.
  rewrite (mr_loop_served coll hdr fuel 0 []); [reflexivity|reflexivity|].
  rewrite Nat.mul_0_l, skipn_O. unfold per_page in *.
  assert ((length coll + 99) / 100 <= length coll / 100 + 1)%nat.
  { transitivity ((length coll + 1 * 100) / 100)%nat.
    - apply Nat.Div0.div_le_mono; lia.
    - rewrite Nat.div_add by lia. lia. }
  lia.
Qed.

(** The 250-item collection at page size 100, with [x-total-pages]
    reported as 3 and misreported as 0. *)
Lemma fetchMergeRequests_complete_witness :
  fetchMergeRequests (served items250 (fun _ => HNumeric 3)) 5 = Some items250 /\
  fetchMergeRequests (served items250 (fun _ => HNumeric 0)) 5 = Some items250.
Proof.
  split; apply fetchMergeRequests_complete; vm_compute; lia.
Defined.

(** C3 (as stated, refuted): the first page succeeds with 100 items and the
    second request fails; the walk does not return the 100 accumulated
    items but the empty sequence. *)
Lemma fetchMergeRequests_partial_cex :
  fetchMergeRequests (fail_after_first items250) 5 = Some [] /\
  fetchMergeRequests (fail_after_first items250) 5 <> Some (firstn per_page items250).
Proof. split; [reflexivity | vm_compute; discriminate]. Qed.

(** C3 (amended): whenever the walk reaches a failing page request, here
    page [k+1] after [k] pages that each held items and let the loop go on
    ([hasMorePages]: a reported total page count above the page index, or a
    full page), the [catch] discards the accumulated items and the result
    is the empty sequence; no exception escapes. [k = 0] is a failing first
    page. *)
Theorem fetchMergeRequests_failure_discards {A : Type} (api : endpoint A)
    (k fuel : nat) :
  (forall p : nat, (1 <= p <= k)%nat ->
     exists b h, api (Z.of_nat p) = Some (mkResponse b h) /\ b <> [] /\
       ((js_gt (number_or_0 h) 0 && js_lt (Z.of_nat p) (number_or_0 h))
        || Nat.eqb (length b) per_page) = true) ->
  api (Z.of_nat k + 1)%Z = None ->
  (k + 1 <= fuel)%nat ->
  fetchMergeRequests api fuel = Some [].
Proof.
  intros Hcont Hfail Hfuel. unfold fetchMergeRequests.
  change 1%Z with (Z.of_nat 0 + 1)%Z.
  rewrite (mr_loop_throws_cont api k Hcont Hfail fuel 0 []); [reflexivity|lia|lia].
Qed.

(** 150 items served 100 per page with [x-total-pages] 3: page 1 is full,
    page 2 is short but the header announces a third page, whose request
    fails. *)
Lemma fetchMergeRequests_failure_discards_witness :
  fetchMergeRequests (fail_from 3 (seq 0 150) (fun _ => HNumeric 3)) 3 = Some [].
Proof.
  apply (fetchMergeRequests_failure_discards
           (fail_from 3 (seq 0 150) (fun _ => HNumeric 3)) 2 3).
  - intros p Hp. destruct p as [|[|[|p]]]; try lia;
      (eexists _, _; split; [reflexivity|]; split; vm_compute; [discriminate|reflexivity]).
  - reflexivity.
  - lia.
Defined.

(** C6 (code bug): 150 notes served 100 per page without an
    [x-total-pages] header. The notes loop of [fetchMergeRequestDetails]
    ([Number(null) || 1] is 1, no full-page fallback) stops after the first
    page; the dual-signal walk of [fetchMergeRequests] on the same pages
    returns all 150. *)
Theorem notes_walk_truncates :
  fetchMergeRequestDetails (served notes150 (fun _ => HAbsent)) (Some []) 5
    = Some (mkDetails (firstn per_page notes150) []) /\
  fetchMergeRequests (served notes150 (fun _ => HAbsent)) 5 = Some notes150 /\
  firstn per_page notes150 <> notes150.
Proof.
  split; [reflexivity|]. split; [reflexivity|].
  intros H. apply (f_equal (@length Note)) in H. vm_compute in H. discriminate.
Qed.

(** ** The reconciler *)

Section SyncProps.
Variable get_fails : Z -> Z -> bool.
Variable run_fails : SqlWrite -> bool.
Variable details_of : Z -> Z -> Details.
Variable getTime : string -> Z.

Local Abbreviation step := (process_one get_fails run_fails details_of getTime).
Local Abbreviation batch := (process_batch get_fails run_fails details_of getTime).

(** The insert path, spelled out: one call to the Detail Enricher, then the
    upsert of the freshly built row. *)
Definition insert_path_result (projectId : Z) (mr : RemoteMR) (st : St)
  : (DbError + unit) * St :=
  let st1 := log_details_call (projectId, mr_iid mr) (incr_new st) in
  let d := details_of projectId (mr_iid mr) in
  let r := build_mrData projectId mr (first_comment getTime d)
                        (approved_at_of getTime d) in
  if run_fails (WMergeRequest r) then (inl SqliteError, st1)
  else (inr tt, set_db_mrs (<[(mr_id mr, projectId) := r]> (db_merge_requests st1)) st1).

Lemma step_absent (projectId : Z) (mr : RemoteMR) (st : St) :
  getMergeRequest get_fails projectId (mr_id mr) st = (inr None, st) ->
  step projectId mr st = insert_path_result projectId mr st.
Proof.
  intros Hget. unfold process_one. unfold mbind at 1, M_bind at 1.
  rewrite Hget. reflexivity.
Qed.

Lemma batch_app (projectId : Z) (mrs1 mrs2 : list RemoteMR) (st st1 : St) :
  batch projectId mrs1 st = (inr tt, st1) ->
  batch projectId (mrs1 ++ mrs2) st = batch projectId mrs2 st1.
Proof.
  revert st. induction mrs1 as [|mr mrs1 IH]; intros st H.
  - simpl in H. injection H as <-. reflexivity.
  - simpl in *. unfold mbind, M_bind in *.
    destruct (step projectId mr st) as [[e|[]] st'] eqn:Hs; [discriminate|].
    now apply IH.
Qed.


(** C10: a failing point lookup is reported as [null]; the iteration then
    takes the insert path (one Detail Enricher call, the row rebuilt from
    the remote record and upserted), whatever the store holds for that key,
    a [merged] row included. *)
Theorem lookup_failure_takes_insert_path (projectId : Z) (mr : RemoteMR)
    (st : St) :
  get_fails projectId (mr_id mr) = true ->
  getMergeRequest get_fails projectId (mr_id mr) st = (inr None, st) /\
  step projectId mr st = insert_path_result projectId mr st.
Proof.
  intros Hfail.
  assert (Hget : getMergeRequest get_fails projectId (mr_id mr) st = (inr None, st)).
  { unfold getMergeRequest. now rewrite Hfail. }
  split; [exact Hget | now apply step_absent].
Qed.

End SyncProps.

(** *** Concrete runs *)

Definition never_fails2 : Z -> Z -> bool := fun _ _ => false.
Definition always_fails2 : Z -> Z -> bool := fun _ _ => true.
Definition no_write_fails : SqlWrite -> bool := fun _ => false.
(** The upsert of merge request 1 is rejected. *)
Definition write_of_mr1_fails : SqlWrite -> bool := fun w =>
  match w with WMergeRequest r => Z.eqb (id r) 1 | WProject _ => false end.
Definition no_details : Z -> Z -> Details := fun _ _ => mkDetails [] [].
Definition epoch_zero : string -> Z := fun _ => 0.

Local Open Scope string_scope.

Definition sample_row (st : string) (sq : option string) : MergeRequestData :=
  {| id := 11; project_id := 7; title := "Fix login"; description := None;
     created_at := "2025-04-01T09:00:00.000Z";
     updated_at := "2025-04-02T09:00:00.000Z";
     state := st; author_id := 3; author_username := "qoyyim";
     first_comment_at := Some "2025-04-01T09:30:00.000Z";
     approved_at := Some "2025-04-01T10:00:00.000Z";
     merged_at := None; squad := sq |}.

Definition sample_remote (i : Z) (st upd : string) : RemoteMR :=
  {| mr_id := i; mr_iid := i + 100; mr_title := "Fix login";
     mr_created_at := "2025-04-01T09:00:00.000Z";
     mr_updated_at := upd; mr_state := st; mr_author_id := 3;
     mr_author_username := "qoyyim"; mr_merged_at := None |}.

Definition store_with (r : MergeRequestData) : St :=
  mkSt ∅ {[(id r, project_id r) := r]} [] 0 0 0.

Definition empty_store : St := mkSt ∅ ∅ [] 0 0 0.

(** A row that has the remote [updated_at] and [state] is skipped as
    unchanged (when the lookup succeeds): the skip path never writes. *)
Lemma unchanged_is_skipped (get_fails : Z -> Z -> bool)
    (run_fails : SqlWrite -> bool) (details_of : Z -> Z -> Details)
    (getTime : string -> Z) (projectId : Z) (mr : RemoteMR)
    (e : MergeRequestData) (st : St) :
  get_fails projectId (mr_id mr) = false ->
  db_merge_requests st !! (mr_id mr, projectId) = Some e ->
  updated_at e = mr_updated_at mr ->
  state e = mr_state mr ->
  process_one get_fails run_fails details_of getTime projectId mr st
    = (inr tt, incr_skipped st).
Proof.
  intros Hok Hrow Hu Hs. unfold process_one. unfold mbind at 1, M_bind at 1.
  unfold getMergeRequest. rewrite Hok, Hrow. simpl.
  rewrite Hu, Hs, !String.eqb_refl, orb_false_r.
  destruct (String.eqb (mr_state mr) "merged"); reflexivity.
Qed.

(** C1 (code bug): a row with squad [WEB] whose remote [updated_at] has
    moved takes the update path; the upsert writes every column from
    [mrData], which carries no squad, so the stored squad becomes NULL. *)
Theorem resync_update_clears_squad :
  let st0 := store_with (sample_row "opened" (Some "WEB")) in
  option_map squad (db_merge_requests st0 !! (11, 7)) = Some (Some "WEB") /\
  match process_one never_fails2 no_write_fails no_details epoch_zero 7
          (sample_remote 11 "opened" "2025-04-03T09:00:00.000Z") st0 with
  | (res, st1) =>
      res = inr tt /\ option_map squad (db_merge_requests st1 !! (11, 7)) = Some None
  end.
Proof. vm_compute. split; [reflexivity | split; reflexivity]. Qed.



Lemma lookup_failure_takes_insert_path_witness :
  getMergeRequest always_fails2 7 11 (store_with (sample_row "merged" (Some "WEB")))
    = (inr None, store_with (sample_row "merged" (Some "WEB"))) /\
  process_one always_fails2 no_write_fails no_details epoch_zero 7
    (sample_remote 11 "merged" "2025-04-02T09:00:00.000Z")
    (store_with (sample_row "merged" (Some "WEB")))
  = insert_path_result no_write_fails no_details epoch_zero 7
      (sample_remote 11 "merged" "2025-04-02T09:00:00.000Z")
      (store_with (sample_row "merged" (Some "WEB"))).
Proof.
  apply (lookup_failure_takes_insert_path always_fails2 no_write_fails
           no_details epoch_zero 7 (sample_remote 11 "merged" "2025-04-02T09:00:00.000Z")).
  reflexivity.
Defined.

(** ** Derived timestamps *)

From Stdlib Require Import Sorting.Sorted.

Section SortProps.
Context {B : Type} (key : B -> Z).

Local Definition key_le (a b : B) : Prop := (key a <= key b)%Z.

Lemma in_insert_by (x y : B) (l : list B) :
  In y (insert_by key x l) <-> y = x \/ In y l.
Proof.
  induction l as [|z l IH]; simpl.
  - intuition (subst; auto).
  - destruct (Z.leb (key x) (key z)); simpl; [intuition (subst; auto)|].
    rewrite IH. intuition (subst; auto).
Qed.

Lemma in_sort_by (y : B) (l : list B) : In y (sort_by key l) <-> In y l.
Proof.
  induction l as [|x l IH]; simpl; [tauto|].
  rewrite in_insert_by, IH. intuition (subst; auto).
Qed.

Lemma insert_by_hdrel (y x : B) (l : list B) :
  HdRel key_le y l -> key_le y x -> HdRel key_le y (insert_by key x l).
Proof.
  intros H Hyx. destruct l as [|z l]; simpl.
  - constructor. exact Hyx.
  - destruct (Z.leb (key x) (key z)); constructor; [exact Hyx|].
    now inversion H.
Qed.

Lemma insert_by_sorted (x : B) (l : list B) :
  Sorted key_le l -> Sorted key_le (insert_by key x l).
Proof.
  induction l as [|z l IH]; intros Hs; simpl.
  - repeat constructor.
  - destruct (Z.leb (key x) (key z)) eqn:Hle.
    + constructor; [exact Hs|]. constructor. unfold key_le. now apply Z.leb_le.
    + inversion Hs as [|? ? Hl Hhd]; subst. constructor; [now apply IH|].
      apply insert_by_hdrel; [exact Hhd|].
      unfold key_le. apply Z.leb_gt in Hle. lia.
Qed.

Lemma sort_by_sorted (l : list B) : Sorted key_le (sort_by key l).
Proof. induction l; simpl; [constructor | now apply insert_by_sorted]. Qed.

(** The head of the sorted list has the least key. *)
Lemma sort_by_head_min (l : list B) (h : B) (t : list B) :
  sort_by key l = h :: t -> forall y, In y l -> (key h <= key y)%Z.
Proof.
  intros Hs y Hy. apply in_sort_by in Hy. rewrite Hs in Hy.
  pose proof (sort_by_sorted l) as Hsort. rewrite Hs in Hsort.
  apply Sorted_StronglySorted in Hsort;
    [| intros a b c; unfold key_le; lia].
  destruct Hy as [<-|Hy]; [lia|].
  inversion Hsort as [|? ? _ Hall]; subst.
  rewrite List.Forall_forall in Hall. exact (Hall y Hy).
Qed.

End SortProps.

Local Open Scope string_scope.

(** C7: [first_comment_at] is the [created_at] of a note whose [system] flag
    is false, one with the least time among those notes, and is [null]
    exactly when there is no such note; a system note at T+1 does not win
    over a human note at T+5. *)
Theorem first_comment_earliest_human (getTime : string -> Z) (d : Details) :
  (first_comment getTime d = None <->
     Forall (fun n => note_system n = true) (notes d)) /\
  (forall t, first_comment getTime d = Some t ->
     exists n, In n (notes d) /\ note_system n = false /\ note_created_at n = t /\
       forall n', In n' (notes d) -> note_system n' = false ->
         (getTime t <= getTime (note_created_at n'))%Z) /\
  first_comment getTime
    (mkDetails [mkNote "2025-04-01T09:01:00.000Z" true;
                mkNote "2025-04-01T09:05:00.000Z" false] [])
    = Some "2025-04-01T09:05:00.000Z".
Proof.
  set (key := fun n => getTime (note_created_at n)).
  set (user := List.filter (fun n => negb (note_system n)) (notes d)).
  assert (Hfirst : first_comment getTime d =
            match sort_by key user with [] => None | n :: _ => Some (note_created_at n) end).
  { unfold first_comment, user, key. destruct (notes d); reflexivity. }
  assert (Huser : forall n, In n user <-> In n (notes d) /\ note_system n = false).
  { intros n. unfold user. rewrite filter_In, negb_true_iff. tauto. }
  split; [|split].
  - rewrite Hfirst, List.Forall_forall. split.
    + intros H n Hn. destruct (note_system n) eqn:Hs; [reflexivity|].
      assert (Hu : In n (sort_by key user)) by (apply in_sort_by, Huser; auto).
      destruct (sort_by key user); [contradiction | discriminate].
    + intros H. destruct (sort_by key user) as [|h t] eqn:Hs; [reflexivity|].
      assert (Hh : In h user) by (apply (in_sort_by key); rewrite Hs; left; reflexivity).
      apply Huser in Hh as [Hin Hsys]. rewrite (H h Hin) in Hsys. discriminate.
  - intros t. rewrite Hfirst. destruct (sort_by key user) as [|h tl] eqn:Hs;
      [discriminate|]. intros Ht. injection Ht as <-.
    exists h.
    assert (Hh : In h user) by (apply (in_sort_by key); rewrite Hs; left; reflexivity).
    apply Huser in Hh as [Hin Hsys].
    repeat split; auto.
    intros n' Hn' Hsys'.
    apply (sort_by_head_min key user h tl Hs n'). now apply Huser.
  - reflexivity.
Qed.

(** ** Analytics *)

Local Open Scope Q_scope.

(** The spec's reading: over the records of the group whose timestamp [f]
    is non-null, the mean of [(f - created_at)] in fractional minutes, with
    [secs] the Unix time in seconds; none when no such record exists. *)
Definition minutes_between (secs : string -> Z) (t c : string) : Q :=
  inject_Z (secs t - secs c) / 60.

Definition spec_mean_minutes (secs : string -> Z)
    (f : MergeRequestData -> option string) (g : list MergeRequestData)
  : option Q :=
  let qual := List.filter (fun r => is_some (f r)) g in
  match qual with
  | [] => None
  | _ =>
      Some (Qsum (map (fun r => match f r with
                                | Some t => minutes_between secs t (created_at r)
                                | None => 0 end) qual)
            / inject_Z (Z.of_nat (length qual)))
  end.

Section AnalyticsProps.
Variable strftime_s : string -> option Z.
Variable secs : string -> Z.
Hypothesis strftime_total : forall t, strftime_s t = Some (secs t).

Lemma somes_case_minutes (f : MergeRequestData -> option string)
    (g : list MergeRequestData) :
  somes (map (fun r => case_minutes strftime_s (f r) (created_at r)) g)
  = map (fun r => match f r with
                  | Some t => minutes_between secs t (created_at r)
                  | None => 0 end)
        (List.filter (fun r => is_some (f r)) g).
Proof.
  induction g as [|r g IH]; [reflexivity|]. simpl.
  unfold case_minutes at 1. destruct (f r) as [t|] eqn:Hf; simpl; [|exact IH].
  rewrite Hf, !strftime_total, IH. reflexivity.
Qed.

Lemma sql_avg_case_minutes (f : MergeRequestData -> option string)
    (g : list MergeRequestData) :
  sql_avg (map (fun r => case_minutes strftime_s (f r) (created_at r)) g)
  = spec_mean_minutes secs f g.
Proof.
  unfold sql_avg, spec_mean_minutes. rewrite somes_case_minutes.
  destruct (List.filter (fun r => is_some (f r)) g) as [|r rs]; [reflexivity|].
  simpl map. cbn [length]. rewrite length_map. reflexivity.
Qed.

End AnalyticsProps.

(** C8: in every row of [getMergeRequestStats], each of the three averages
    is the mean in fractional minutes of [(timestamp - created_at)] over
    the records of that group whose timestamp is not NULL; records with a
    NULL timestamp are in neither the sum nor the count. *)
Theorem stats_avg_excludes_nulls (strftime_s : string -> option Z)
    (secs : string -> Z) (projectId : Z) (startDate endDate : option string)
    (table : list MergeRequestData) (row : StatsRow) :
  (forall t, strftime_s t = Some (secs t)) ->
  In row (getMergeRequestStats strftime_s projectId startDate endDate table) ->
  let g := rows_of_squad (sr_squad row)
             (List.filter (stats_where projectId startDate endDate) table) in
  sr_avg_time_to_first_comment row = spec_mean_minutes secs first_comment_at g /\
  sr_avg_time_to_approval row = spec_mean_minutes secs approved_at g /\
  sr_avg_time_to_merge row = spec_mean_minutes secs merged_at g.
Proof.
  intros Htot Hin. unfold getMergeRequestStats in Hin.
  apply in_map_iff in Hin as (s & <- & _). simpl.
  rewrite <- !(sql_avg_case_minutes strftime_s secs Htot). 
  repeat split; reflexivity.
Qed.

(** Unix times of the sample timestamps. *)
Definition sample_secs (t : string) : Z :=
  if String.eqb t "2025-04-01T09:00:00.000Z" then 1743498000
  else if String.eqb t "2025-04-01T09:10:00.000Z" then 1743498600
  else if String.eqb t "2025-04-01T09:30:00.000Z" then 1743499800
  else if String.eqb t "2025-04-30T10:00:00.000Z" then 1746007200
  else if String.eqb t "2025-04-30T14:00:00.000Z" then 1746021600
  else 0.
Definition sample_strftime (t : string) : option Z := Some (sample_secs t).

Definition sample_mr (i : Z) (created : string) (fc : option string) : MergeRequestData :=
  {| id := i; project_id := 7; title := "MR"; description := None;
     created_at := created; updated_at := created; state := "opened";
     author_id := 3; author_username := "qoyyim";
     first_comment_at := fc; approved_at := None; merged_at := None;
     squad := Some "WEB" |}.

(** Three records of squad WEB with first-comment deltas 10, NULL and 30
    minutes. *)
Definition three_mrs : list MergeRequestData :=
  [sample_mr 1 "2025-04-01T09:00:00.000Z" (Some "2025-04-01T09:10:00.000Z");
   sample_mr 2 "2025-04-01T09:00:00.000Z" None;
   sample_mr 3 "2025-04-01T09:00:00.000Z" (Some "2025-04-01T09:30:00.000Z")].

Lemma stats_avg_excludes_nulls_witness :
  (let row := stats_row sample_strftime "WEB"
                (rows_of_squad "WEB" (List.filter (stats_where 7 None None) three_mrs)) in
   let g := rows_of_squad (sr_squad row)
              (List.filter (stats_where 7 None None) three_mrs) in
   sr_avg_time_to_first_comment row = spec_mean_minutes sample_secs first_comment_at g /\
   sr_avg_time_to_approval row = spec_mean_minutes sample_secs approved_at g /\
   sr_avg_time_to_merge row = spec_mean_minutes sample_secs merged_at g) /\
  match spec_mean_minutes sample_secs first_comment_at three_mrs with
  | Some q => q == 20
  | None => False
  end.
Proof.
  split.
  - apply (stats_avg_excludes_nulls sample_strftime sample_secs 7 None None three_mrs).
    + reflexivity.
    + left. reflexivity.
  - vm_compute. reflexivity.
Defined.

(** A record created during 2025-04-30 (GitLab's ISO 8601 [created_at]),
    first commented four hours later. *)
Definition mr_on_0430 : MergeRequestData :=
  sample_mr 4 "2025-04-30T10:00:00.000Z" (Some "2025-04-30T14:00:00.000Z").

(** C9 (code bug): the bounds are compared as text with the full
    timestamp, so ["2025-04-30T10:00:00.000Z" <= "2025-04-30"] is false: a
    record created on the end date is left out of both queries, while the
    same date as a start bound does include it. *)
Theorem end_date_excludes_that_day :
  getMergeRequestStats sample_strftime 7 None (Some "2025-04-30") [mr_on_0430] = [] /\
  countMrsWithLateFirstComment sample_strftime 7 60 None (Some "2025-04-30")
    [mr_on_0430] = [] /\
  map sr_total_mrs
    (getMergeRequestStats sample_strftime 7 (Some "2025-04-30") None [mr_on_0430])
    = [1%nat] /\
  countMrsWithLateFirstComment sample_strftime 7 60 (Some "2025-04-30") None
    [mr_on_0430] = [("WEB", 1%nat)].
Proof. vm_compute. repeat split. Qed.

Close Scope Q_scope.

(* ================================================================== *)
(** ** Batch-level behaviour of the sync loop *)

Section SyncInvariants.
Variable get_fails : Z -> Z -> bool.
Variable run_fails : SqlWrite -> bool.
Variable details_of : Z -> Z -> Details.
Variable getTime : string -> Z.

Local Abbreviation step := (process_one get_fails run_fails details_of getTime).
Local Abbreviation batch := (process_batch get_fails run_fails details_of getTime).

(** The enrichment path after a counter [bump]: one Detail Enricher call,
    then the upsert of the row built from the remote record. *)
Definition upsert_path_result (bump : St -> St) (projectId : Z) (mr : RemoteMR)
    (st : St) : (DbError + unit) * St :=
  let st1 := log_details_call (projectId, mr_iid mr) (bump st) in
  let d := details_of projectId (mr_iid mr) in
  let r := build_mrData projectId mr (first_comment getTime d)
                        (approved_at_of getTime d) in
  if run_fails (WMergeRequest r) then (inl SqliteError, st1)
  else (inr tt, set_db_mrs (<[(mr_id mr, projectId) := r]> (db_merge_requests st1)) st1).

(** The two skip conditions of the loop body. *)
Definition skip_cond (e : MergeRequestData) (mr : RemoteMR) : bool :=
  (String.eqb (mr_state mr) "merged" && String.eqb (state e) "merged")
  || negb (negb (String.eqb (updated_at e) (mr_updated_at mr))
           || negb (String.eqb (state e) (mr_state mr))).

(** The three outcomes of one iteration. *)
Lemma step_cases (projectId : Z) (mr : RemoteMR) (st : St) :
  (exists e, get_fails projectId (mr_id mr) = false /\
     db_merge_requests st !! (mr_id mr, projectId) = Some e /\
     skip_cond e mr = true /\ step projectId mr st = (inr tt, incr_skipped st)) \/
  (exists e, get_fails projectId (mr_id mr) = false /\
     db_merge_requests st !! (mr_id mr, projectId) = Some e /\
     skip_cond e mr = false /\
     step projectId mr st = upsert_path_result incr_updated projectId mr st) \/
  (step projectId mr st = upsert_path_result incr_new projectId mr st).
Proof.
  unfold process_one, getMergeRequest, mbind, M_bind.
  destruct (get_fails projectId (mr_id mr)) eqn:Hg.
  - right; right. reflexivity.
  - destruct (db_merge_requests st !! (mr_id mr, projectId)) as [e|] eqn:Hl.
    + unfold skip_cond.
      destruct (String.eqb (mr_state mr) "merged" && String.eqb (state e) "merged") eqn:Hm.
      * left. exists e. repeat split; auto; now rewrite ?Hm.
      * destruct (negb (negb (String.eqb (updated_at e) (mr_updated_at mr))
                        || negb (String.eqb (state e) (mr_state mr)))) eqn:Hn.
        -- left. exists e. repeat split; auto; now rewrite ?Hm, ?Hn.
        -- right; left. exists e. repeat split; auto; now rewrite ?Hm, ?Hn.
    + right; right. reflexivity.
Qed.

(** The row built from the remote record agrees with it on [state] and
    [updated_at]; a skipped row agrees too, or both sides are [merged]. *)
Definition synced (r : MergeRequestData) (mr : RemoteMR) : Prop :=
  (state r = mr_state mr /\ updated_at r = mr_updated_at mr) \/
  (state r = "merged" /\ mr_state mr = "merged").

Lemma skip_cond_synced (e : MergeRequestData) (mr : RemoteMR) :
  skip_cond e mr = true <-> synced e mr.
Proof.
  unfold skip_cond, synced. rewrite orb_true_iff, andb_true_iff, negb_orb,
    andb_true_iff, !negb_involutive, !String.eqb_eq. intuition congruence.
Qed.

(** What one iteration leaves in the state: the counters, the Detail
    Enricher log and the store. *)
Lemma step_effect (projectId : Z) (mr : RemoteMR) (st st' : St) res :
  step projectId mr st = (res, st') ->
  db_projects st' = db_projects st /\
  (skippedCount st' + updatedCount st' + newCount st'
     = S (skippedCount st + updatedCount st + newCount st))%nat /\
  ((details_calls st' = details_calls st /\ skippedCount st' = S (skippedCount st)
      /\ res = inr tt /\ db_merge_requests st' = db_merge_requests st) \/
   (details_calls st' = (details_calls st ++ [(projectId, mr_iid mr)])%list /\
      skippedCount st' = skippedCount st /\
      (db_merge_requests st' = db_merge_requests st \/
       exists r, db_merge_requests st' = <[(mr_id mr, projectId) := r]> (db_merge_requests st)
                 /\ state r = mr_state mr /\ updated_at r = mr_updated_at mr))) /\
  (res = inr tt -> exists r, db_merge_requests st' !! (mr_id mr, projectId) = Some r
                             /\ synced r mr).
Proof.
  intros H.
  destruct (step_cases projectId mr st) as [(e & Hg & Hl & Hs & Hst)|[(e & Hg & Hl & Hs & Hst)|Hst]];
    rewrite Hst in H.
  - injection H as <- <-. cbn.
    split; [reflexivity|]. split; [lia|]. split.
    + left. auto.
    + intros _. exists e. split; [exact Hl|]. now apply skip_cond_synced.
  - unfold upsert_path_result in H.
    destruct (run_fails _); injection H as <- <-; cbn;
      (split; [reflexivity|]); (split; [lia|]); split.
    + right. split; [reflexivity|]. split; [reflexivity|]. now left.
    + discriminate.
    + right. split; [reflexivity|]. split; [reflexivity|].
      right. eexists. split; [reflexivity|]. split; reflexivity.
    + intros _. eexists. rewrite lookup_insert_eq. split; [reflexivity|left; auto].
  - unfold upsert_path_result in H.
    destruct (run_fails _); injection H as <- <-; cbn;
      (split; [reflexivity|]); (split; [lia|]); split.
    + right. split; [reflexivity|]. split; [reflexivity|]. now left.
    + discriminate.
    + right. split; [reflexivity|]. split; [reflexivity|].
      right. eexists. split; [reflexivity|]. split; reflexivity.
    + intros _. eexists. rewrite lookup_insert_eq. split; [reflexivity|left; auto].
Qed.

Lemma step_keeps_other_rows (projectId : Z) (mr : RemoteMR) (st st' : St) res
    (k : Z * Z) :
  step projectId mr st = (res, st') ->
  (k <> (mr_id mr, projectId) ->
   db_merge_requests st' !! k = db_merge_requests st !! k) /\
  (is_Some (db_merge_requests st !! k) -> is_Some (db_merge_requests st' !! k)).
Proof.
  intros H. destruct (step_effect projectId mr st st' res H) as (_ & _ & Hcase & _).
  assert (Hdb : db_merge_requests st' = db_merge_requests st \/
                exists r, db_merge_requests st' =
                          <[(mr_id mr, projectId) := r]> (db_merge_requests st)).
  { destruct Hcase as [(_ & _ & _ & ?)|(_ & _ & [?|(r & ? & _)])]; eauto. }
  destruct Hdb as [Hdb|(r & Hdb)]; rewrite Hdb; split; auto.
  - intros Hk. apply lookup_insert_ne. congruence.
  - intros Hs. destruct (decide (k = (mr_id mr, projectId))) as [->|Hk].
    + rewrite lookup_insert_eq. eexists; reflexivity.
    + rewrite lookup_insert_ne by congruence. exact Hs.
Qed.

Lemma batch_cons_ok (projectId : Z) (mr : RemoteMR) (mrs : list RemoteMR)
    (st st' : St) :
  batch projectId (mr :: mrs) st = (inr tt, st') ->
  exists st1, step projectId mr st = (inr tt, st1) /\
              batch projectId mrs st1 = (inr tt, st').
Proof.
  simpl. unfold mbind at 1, M_bind at 1.
  destruct (step projectId mr st) as [[e|[]] st1]; [discriminate|].
  intros H. exists st1. split; [reflexivity|exact H].
Qed.

Lemma batch_keeps_other_rows (projectId : Z) (mrs : list RemoteMR) :
  forall st st' k, batch projectId mrs st = (inr tt, st') ->
  (Forall (fun mr => k <> (mr_id mr, projectId)) mrs ->
   db_merge_requests st' !! k = db_merge_requests st !! k) /\
  (is_Some (db_merge_requests st !! k) -> is_Some (db_merge_requests st' !! k)).
Proof.
  induction mrs as [|mr mrs IH]; intros st st' k H.
  - simpl in H. injection H as <-. split; auto.
  - apply batch_cons_ok in H as (st1 & H1 & H2).
    destruct (step_keeps_other_rows projectId mr st st1 _ k H1) as [Ho Hs].
    destruct (IH st1 st' k H2) as [Ho' Hs']. split.
    + intros Hall. inversion Hall; subst. rewrite Ho'; auto.
    + auto.
Qed.

(** After a batch that resolves, every fetched merge request has a row
    under [(id, projectId)] that agrees with the remote [state] and
    [updated_at] (or both are merged), provided the ids are distinct; rows
    present before the run are all still present. *)
Lemma batch_rows_inv (projectId : Z) (mrs : list RemoteMR) (st st' : St) :
  batch projectId mrs st = (inr tt, st') ->
  (forall k, is_Some (db_merge_requests st !! k) ->
             is_Some (db_merge_requests st' !! k)) /\
  (forall mr, In mr mrs -> is_Some (db_merge_requests st' !! (mr_id mr, projectId))) /\
  (NoDup (map mr_id mrs) ->
   forall mr, In mr mrs ->
     exists r, db_merge_requests st' !! (mr_id mr, projectId) = Some r /\ synced r mr).
Proof.
  revert st. induction mrs as [|mr mrs IH]; intros st H.
  - simpl in H. injection H as <-. repeat split; auto; intros; contradiction.
  - apply batch_cons_ok in H as (st1 & H1 & H2).
    destruct (IH st1 H2) as (IHk & IHin & IHsync).
    destruct (step_effect projectId mr st st1 _ H1) as (_ & _ & _ & Hrow).
    destruct (Hrow eq_refl) as (r & Hr & Hsr).
    split; [|split].
    + intros k Hk. apply IHk. exact (proj2 (step_keeps_other_rows projectId mr st st1 _ k H1) Hk).
    + intros m [<-|Hm]; [|now apply IHin]. apply IHk. rewrite Hr. eexists; reflexivity.
    + intros Hnd m [<-|Hm].
      * exists r. split; [|exact Hsr].
        rewrite (proj1 (batch_keeps_other_rows projectId mrs st1 st' _ H2)); [exact Hr|].
        simpl in Hnd. inversion Hnd as [|? ? Hnin Hnd']; subst.
        apply List.Forall_forall. intros m Hm Heq. injection Heq as Heq.
        apply Hnin. rewrite Heq. apply list_elem_of_In. now apply in_map.
      * simpl in Hnd. inversion Hnd; subst. now apply IHsync.
Qed.
Lemma batch_projects_unchanged_inv (projectId : Z) (mrs : list RemoteMR) :
  forall st st', batch projectId mrs st = (inr tt, st') ->
  db_projects st' = db_projects st.
Proof.
  induction mrs as [|mr mrs IH]; intros st st' H.
  - simpl in H. now injection H as <-.
  - apply batch_cons_ok in H as (st1 & H1 & H2).
    rewrite (IH st1 st' H2). exact (proj1 (step_effect projectId mr st st1 _ H1)).
Qed.

(** A rejected iteration has made its Detail Enricher call and written
    nothing. *)
Lemma step_failure_writes_nothing (projectId : Z) (mr : RemoteMR) (st st' : St) :
  step projectId mr st = (inl SqliteError, st') ->
  db_merge_requests st' = db_merge_requests st /\
  db_projects st' = db_projects st /\
  details_calls st' = (details_calls st ++ [(projectId, mr_iid mr)])%list.
Proof.
  intros H.
  destruct (step_cases projectId mr st) as [(e & _ & _ & _ & Hst)|[(e & _ & _ & _ & Hst)|Hst]];
    rewrite Hst in H; [discriminate| |];
    unfold upsert_path_result in H; destruct (run_fails _);
    inversion H; subst; repeat split.
Qed.

(** C4 (amended): a rejected upsert is not caught and leaves the
    [for ... of] loop: the batch rejects with the state reached at the
    failing record. The rows written by the records before it stay (and
    so does every row present before the run); neither the failing record
    nor any later one has written a row, the Detail Enricher was last
    called for the failing record, and the projects table is untouched. *)
Theorem save_failure_aborts_batch (projectId : Z) (mrs1 : list RemoteMR)
    (mr : RemoteMR) (mrs2 : list RemoteMR) (st st1 st2 : St) :
  batch projectId mrs1 st = (inr tt, st1) ->
  step projectId mr st1 = (inl SqliteError, st2) ->
  batch projectId (mrs1 ++ mr :: mrs2) st = (inl SqliteError, st2) /\
  (forall m, In m mrs1 -> is_Some (db_merge_requests st2 !! (mr_id m, projectId))) /\
  (forall k, is_Some (db_merge_requests st !! k) -> is_Some (db_merge_requests st2 !! k)) /\
  (forall k, Forall (fun m => k <> (mr_id m, projectId)) mrs1 ->
     db_merge_requests st2 !! k = db_merge_requests st !! k) /\
  details_calls st2 = (details_calls st1 ++ [(projectId, mr_iid mr)])%list /\
  db_projects st2 = db_projects st /\
  (forall project st0,
     saveProject run_fails project st0 = (inr tt, st) ->
     processAndStoreMergeRequests get_fails run_fails details_of getTime projectId project
       (mrs1 ++ mr :: mrs2) st0 = (inl SqliteError, st2)).
Proof.
  intros H1 H2.
  destruct (step_failure_writes_nothing projectId mr st1 st2 H2) as (Hdb & Hpr & Hdc).
  destruct (batch_rows_inv projectId mrs1 st st1 H1) as (Hkeep & Hin & _).
  assert (Hb : batch projectId (mrs1 ++ mr :: mrs2) st = (inl SqliteError, st2)).
  { rewrite (batch_app get_fails run_fails details_of getTime projectId mrs1 (mr :: mrs2) st st1 H1).
    cbn [process_batch]. unfold mbind at 1, M_bind at 1. now rewrite H2. }
  split; [|split; [|split; [|split; [|split; [|split]]]]].
  - exact Hb.
  - intros m Hm. rewrite Hdb. now apply Hin.
  - intros k Hk. rewrite Hdb. now apply Hkeep.
  - intros k Hk. rewrite Hdb. apply (proj1 (batch_keeps_other_rows projectId mrs1 st st1 k H1)).
    exact Hk.
  - exact Hdc.
  - rewrite Hpr. exact (batch_projects_unchanged_inv projectId mrs1 st st1 H1).
  - intros project st0 Hp. unfold processAndStoreMergeRequests.
    destruct (mrs1 ++ mr :: mrs2)%list as [|m ms] eqn:Hl; [now destruct mrs1|].
    unfold mbind at 1, M_bind at 1. rewrite Hp. exact Hb.
Qed.

Theorem batch_rows_present (projectId : Z) (mrs : list RemoteMR) (st st' : St) :
  batch projectId mrs st = (inr tt, st') ->
  (forall k, is_Some (db_merge_requests st !! k) ->
             is_Some (db_merge_requests st' !! k)) /\
  (forall mr, In mr mrs -> is_Some (db_merge_requests st' !! (mr_id mr, projectId))) /\
  (NoDup (map mr_id mrs) ->
   forall mr, In mr mrs ->
     exists r, db_merge_requests st' !! (mr_id mr, projectId) = Some r /\ synced r mr).
Proof. exact (batch_rows_inv projectId mrs st st'). Qed.


(** Per merge request, a resolved batch either counts a skip or makes one
    Detail Enricher call; the three counters together grow by the length of
    the batch and the projects table is not touched. *)
Theorem batch_accounting (projectId : Z) (mrs : list RemoteMR) :
  forall st st', batch projectId mrs st = (inr tt, st') ->
  db_projects st' = db_projects st /\
  (skippedCount st' + updatedCount st' + newCount st'
     = skippedCount st + updatedCount st + newCount st + length mrs)%nat /\
  (length (details_calls st') + skippedCount st'
     = length (details_calls st) + skippedCount st + length mrs)%nat.
Proof.
  induction mrs as [|mr mrs IH]; intros st st' H.
  - simpl in H. injection H as <-. cbn. repeat split; lia.
  - apply batch_cons_ok in H as (st1 & H1 & H2).
    destruct (IH st1 st' H2) as (Hp & Hc & Hl).
    destruct (step_effect projectId mr st st1 _ H1) as (Hp1 & Hc1 & Hcase & _).
    cbn [length]. split; [congruence|]. split; [lia|].
    destruct Hcase as [(Hd & Hs & _ & _)|(Hd & Hs & _)]; rewrite Hd in Hl;
      rewrite ?length_app in Hl; cbn [length] in Hl; lia.
Qed.

Lemma synced_step_skips (projectId : Z) (mr : RemoteMR) (st : St)
    (e : MergeRequestData) :
  get_fails projectId (mr_id mr) = false ->
  db_merge_requests st !! (mr_id mr, projectId) = Some e ->
  synced e mr ->
  step projectId mr st = (inr tt, incr_skipped st).
Proof.
  intros Hg Hl Hs. apply skip_cond_synced in Hs. unfold skip_cond in Hs.
  unfold process_one, getMergeRequest, mbind, M_bind. rewrite Hg, Hl.
  destruct (String.eqb (mr_state mr) "merged" && String.eqb (state e) "merged");
    [reflexivity|].
  simpl in Hs. rewrite Hs. reflexivity.
Qed.

Lemma batch_all_synced (projectId : Z) (mrs : list RemoteMR) :
  forall st,
  (forall mr, In mr mrs ->
     get_fails projectId (mr_id mr) = false /\
     exists e, db_merge_requests st !! (mr_id mr, projectId) = Some e /\ synced e mr) ->
  batch projectId mrs st = (inr tt, Nat.iter (length mrs) incr_skipped st).
Proof.
  induction mrs as [|mr mrs IH]; intros st Hall; [reflexivity|].
  destruct (Hall mr (or_introl eq_refl)) as (Hg & e & Hl & Hs).
  cbn [process_batch]. unfold mbind at 1, M_bind at 1.
  rewrite (synced_step_skips projectId mr st e Hg Hl Hs).
  rewrite IH.
  - cbn [length]. now rewrite Nat.iter_succ_r.
  - intros m Hm. exact (Hall m (or_intror Hm)).
Qed.

(** Re-running a batch that resolved, over the store it left, with distinct
    ids and lookups that do not reject, skips every merge request: no
    Detail Enricher call, no write, only the skip counter moves. *)
Theorem batch_rerun_skips_all (projectId : Z) (mrs : list RemoteMR) (st st1 : St) :
  batch projectId mrs st = (inr tt, st1) ->
  NoDup (map mr_id mrs) ->
  (forall mr, In mr mrs -> get_fails projectId (mr_id mr) = false) ->
  batch projectId mrs st1 = (inr tt, Nat.iter (length mrs) incr_skipped st1).
Proof.
  intros H Hnd Hg. destruct (batch_rows_inv projectId mrs st st1 H) as (_ & _ & Hs).
  apply batch_all_synced. intros mr Hin. split; [now apply Hg|]. now apply Hs.
Qed.

End SyncInvariants.

(** Three merge requests over the empty store; only the upsert of merge
    request 1, the second of the batch, is rejected. *)
Definition c4_first : list RemoteMR := [sample_remote 2 "opened" "u"].
Definition c4_failing : RemoteMR := sample_remote 1 "opened" "u".
Definition c4_rest : list RemoteMR := [sample_remote 3 "opened" "u"].
Definition c4_st1 : St :=
  snd (process_batch never_fails2 write_of_mr1_fails no_details epoch_zero 7
         c4_first empty_store).
Definition c4_st2 : St :=
  snd (process_one never_fails2 write_of_mr1_fails no_details epoch_zero 7
         c4_failing c4_st1).

(** C4 (as stated, refuted): the rejected upsert of the second record
    aborts the batch; the first record's row stays, the third record is
    never written. *)
Lemma save_failure_cex :
  fst (process_batch never_fails2 write_of_mr1_fails no_details epoch_zero 7
         (c4_first ++ c4_failing :: c4_rest) empty_store) = inl SqliteError /\
  is_Some (db_merge_requests
    (snd (process_batch never_fails2 write_of_mr1_fails no_details epoch_zero 7
            (c4_first ++ c4_failing :: c4_rest) empty_store)) !! (2, 7)) /\
  db_merge_requests
    (snd (process_batch never_fails2 write_of_mr1_fails no_details epoch_zero 7
            (c4_first ++ c4_failing :: c4_rest) empty_store)) !! (3, 7) = None.
Proof. split; [|split]; vm_compute; [reflexivity|eexists; reflexivity|reflexivity]. Qed.

Lemma save_failure_aborts_batch_witness :
  process_batch never_fails2 write_of_mr1_fails no_details epoch_zero 7
    (c4_first ++ c4_failing :: c4_rest) empty_store = (inl SqliteError, c4_st2) /\
  is_Some (db_merge_requests c4_st2 !! (2, 7)) /\
  db_merge_requests c4_st2 !! (1, 7) = None /\
  db_merge_requests c4_st2 !! (3, 7) = None /\
  details_calls c4_st2 = [(7, 102); (7, 101)].
Proof.
  destruct (save_failure_aborts_batch never_fails2 write_of_mr1_fails no_details
              epoch_zero 7 c4_first c4_failing c4_rest empty_store c4_st1 c4_st2)
    as (Hb & Hin & _ & Hoth & Hdc & _ & _);
    [vm_compute; reflexivity | vm_compute; reflexivity |].
  split; [exact Hb|split; [|split; [|split]]].
  - apply (Hin (sample_remote 2 "opened" "u")). left. reflexivity.
  - rewrite Hoth; [reflexivity|]. constructor; [discriminate|constructor].
  - rewrite Hoth; [reflexivity|]. constructor; [discriminate|constructor].
  - rewrite Hdc. vm_compute. reflexivity.
Defined.

(** A two-element batch over the empty store: one open and one merged
    merge request, every lookup and write succeeding. *)
Definition sample_batch : list RemoteMR :=
  [sample_remote 1 "opened" "u"; sample_remote 2 "merged" "v"].
Definition run_sample_batch : (DbError + unit) * St :=
  process_batch never_fails2 no_write_fails no_details epoch_zero 7
    sample_batch empty_store.

Lemma batch_accounting_witness :
  process_batch never_fails2 no_write_fails no_details epoch_zero 7
    sample_batch empty_store = (inr tt, snd run_sample_batch) /\
  db_projects (snd run_sample_batch) = db_projects empty_store /\
  (skippedCount (snd run_sample_batch) + updatedCount (snd run_sample_batch)
     + newCount (snd run_sample_batch)
   = skippedCount empty_store + updatedCount empty_store + newCount empty_store
     + length sample_batch)%nat /\
  (length (details_calls (snd run_sample_batch)) + skippedCount (snd run_sample_batch)
   = length (details_calls empty_store) + skippedCount empty_store
     + length sample_batch)%nat.
Proof.
  split; [reflexivity|].
  apply (batch_accounting never_fails2 no_write_fails no_details epoch_zero 7
           sample_batch empty_store (snd run_sample_batch)).
  reflexivity.
Defined.

Lemma batch_rows_present_witness :
  process_batch never_fails2 no_write_fails no_details epoch_zero 7
    sample_batch empty_store = (inr tt, snd run_sample_batch) /\
  (forall k, is_Some (db_merge_requests empty_store !! k) ->
             is_Some (db_merge_requests (snd run_sample_batch) !! k)) /\
  (forall mr, In mr sample_batch ->
     is_Some (db_merge_requests (snd run_sample_batch) !! (mr_id mr, 7))) /\
  (NoDup (map mr_id sample_batch) ->
   forall mr, In mr sample_batch ->
     exists r, db_merge_requests (snd run_sample_batch) !! (mr_id mr, 7) = Some r
               /\ synced r mr).
Proof.
  split; [reflexivity|].
  apply (batch_rows_present never_fails2 no_write_fails no_details epoch_zero 7
           sample_batch empty_store (snd run_sample_batch)).
  reflexivity.
Defined.

Lemma batch_rerun_skips_all_witness :
  process_batch never_fails2 no_write_fails no_details epoch_zero 7
    sample_batch (snd run_sample_batch)
  = (inr tt, Nat.iter 2 incr_skipped (snd run_sample_batch)).
Proof.
  apply (batch_rerun_skips_all never_fails2 no_write_fails no_details epoch_zero 7
           sample_batch empty_store (snd run_sample_batch)).
  - reflexivity.
  - apply (bool_decide_unpack _). vm_compute. reflexivity.
  - intros mr _. reflexivity.
Defined.

(** ** The notes loop and fetchMergeRequestDetails *)

Section NotesProps.
Context {A : Type}.

(** With the same [x-total-pages] header [h] on every page, the notes loop
    reads pages [1 .. max 1 (Number(h) || 1)] and nothing else. *)
Lemma notes_loop_served (coll : list A) (h : header) (N : nat) :
  N = Z.to_nat (Z.max 1 (number_or_1 h)) ->
  forall fuel n, (n < N)%nat -> (N - n <= fuel)%nat ->
  notes_loop (served coll (fun _ => h)) fuel (Z.of_nat n + 1)
             (firstn (n * per_page) coll)
  = LDone (firstn (N * per_page) coll).
Proof.
  intros HN. induction fuel as [|fuel IH]; intros n Hn Hf; [lia|].
  cbn [notes_loop]. unfold served. cbn [body x_total_pages].
  replace (Z.to_nat (Z.of_nat n + 1 - 1)) with n by lia.
  rewrite <- firstn_plus.
  replace (n * per_page + per_page)%nat with (S n * per_page)%nat by lia.
  destruct (Z.ltb_spec (Z.of_nat n + 1) (number_or_1 h)).
  - replace (Z.of_nat n + 1 + 1)%Z with (Z.of_nat (S n) + 1)%Z by lia.
    apply IH; lia.
  - do 3 f_equal. lia.
Qed.

(** Pages [1..k] answer with a header announcing more than the current page,
    page [k+1] fails. *)
Lemma notes_loop_throws (api : endpoint A) (k : nat) :
  (forall p : nat, (1 <= p <= k)%nat ->
     exists b h, api (Z.of_nat p) = Some (mkResponse b h) /\
                 (Z.of_nat p < number_or_1 h)%Z) ->
  api (Z.of_nat k + 1)%Z = None ->
  forall fuel n acc, (n <= k)%nat -> (k - n + 1 <= fuel)%nat ->
    notes_loop api fuel (Z.of_nat n + 1) acc = LThrow.
Proof.
  intros Hpages Hfail.
  induction fuel as [|fuel IH]; intros n acc Hn Hfuel; [lia|].
  cbn [notes_loop]. destruct (Nat.eq_dec n k) as [->|Hlt].
  - now rewrite Hfail.
  - destruct (Hpages (S n)) as (b & h & Hp & Hlt'); [lia|].
    replace (Z.of_nat n + 1)%Z with (Z.of_nat (S n)) by lia.
    rewrite Hp. cbn [body x_total_pages].
    replace (Z.of_nat (S n) <? number_or_1 h)%Z with true by (symmetry; apply Z.ltb_lt; exact Hlt').
    replace (Z.of_nat (S n) + 1)%Z with (Z.of_nat (S n) + 1)%Z by reflexivity.
    apply (IH (S n)); lia.
Qed.

End NotesProps.

(** Lemma for the first element of a stable insertion sort: it is preceded
    in the input only by elements with a strictly larger key. *)
Section SortFirst.
Context {B : Type} (key : B -> Z).

Lemma sort_by_head_first (l : list B) (h : B) (t : list B) :
  sort_by key l = h :: t ->
  exists l1 l2, l = (l1 ++ h :: l2)%list /\ Forall (fun y => (key h < key y)%Z) l1.
Proof.
  revert h t. induction l as [|x l IH]; intros h t Hs; [discriminate|].
  cbn [sort_by] in Hs. destruct (sort_by key l) as [|h' t'] eqn:Hl.
  - cbn in Hs. injection Hs as <- _. exists [], l. split; [reflexivity|constructor].
  - cbn [insert_by] in Hs. destruct (Z.leb_spec (key x) (key h')).
    + injection Hs as <- _. exists [], l. split; [reflexivity|constructor].
    + injection Hs as <- _. destruct (IH h' t' eq_refl) as (l1 & l2 & -> & Hf).
      exists (x :: l1), l2. split; [reflexivity|]. constructor; [lia|exact Hf].
Qed.

End SortFirst.

(** With the same [x-total-pages] header [h] on every page of a collection
    served 100 per page, [fetchMergeRequestDetails] returns the first
    [100 * max 1 (Number(h) || 1)] notes (the approval events untouched), so
    it has all of them exactly when the header announces enough pages. *)
Theorem fetchMergeRequestDetails_pages (coll : list Note) (h : header)
    (evs : list ApprovalEvent) (fuel : nat) :
  (Z.to_nat (Z.max 1 (number_or_1 h)) <= fuel)%nat ->
  fetchMergeRequestDetails (served coll (fun _ => h)) (Some evs) fuel
    = Some (mkDetails (firstn (Z.to_nat (Z.max 1 (number_or_1 h)) * per_page) coll) evs) /\
  (firstn (Z.to_nat (Z.max 1 (number_or_1 h)) * per_page) coll = coll <->
   (length coll <= Z.to_nat (Z.max 1 (number_or_1 h)) * per_page)%nat).
Proof.
  intros Hf. split.
  - unfold fetchMergeRequestDetails. change 1%Z with (Z.of_nat 0 + 1)%Z.
    change (@nil Note) with (firstn (0 * per_page) coll) at 1.
    rewrite (notes_loop_served coll h _ eq_refl fuel 0); [reflexivity|lia|lia].
  - split; [intros H; rewrite <- H, length_firstn; lia | apply firstn_all2].
Qed.

Lemma fetchMergeRequestDetails_pages_witness :
  fetchMergeRequestDetails (served notes150 (fun _ => HNumeric 2)) (Some []) 2
    = Some (mkDetails (firstn (Z.to_nat (Z.max 1 (number_or_1 (HNumeric 2))) * per_page)
                              notes150) []) /\
  (firstn (Z.to_nat (Z.max 1 (number_or_1 (HNumeric 2))) * per_page) notes150 = notes150 <->
   (length notes150 <= Z.to_nat (Z.max 1 (number_or_1 (HNumeric 2))) * per_page)%nat).
Proof.
  apply (fetchMergeRequestDetails_pages notes150 (HNumeric 2) [] 2). vm_compute. lia.
Defined.

(** Pages [1..k] of the notes announce more pages and page [k+1] fails: the
    [catch] of [fetchMergeRequestDetails] returns empty details, discarding
    the notes already read and the approval events as well. *)
Theorem fetchMergeRequestDetails_notes_failure (notes_api : endpoint Note)
    (approvals : option (list ApprovalEvent)) (k fuel : nat) :
  (forall p : nat, (1 <= p <= k)%nat ->
     exists b h, notes_api (Z.of_nat p) = Some (mkResponse b h) /\
                 (Z.of_nat p < number_or_1 h)%Z) ->
  notes_api (Z.of_nat k + 1)%Z = None ->
  (k + 1 <= fuel)%nat ->
  fetchMergeRequestDetails notes_api approvals fuel = Some (mkDetails [] []).
Proof.
  intros Hp Hfail Hf. unfold fetchMergeRequestDetails.
  change 1%Z with (Z.of_nat 0 + 1)%Z.
  rewrite (notes_loop_throws notes_api k Hp Hfail fuel 0 []); [reflexivity|lia|lia].
Qed.

(** The first notes page announces two pages, the second request fails. *)
Definition notes_fail_second : endpoint Note :=
  fun page => if Z.eqb page 1
              then Some (mkResponse (firstn per_page notes150) (HNumeric 2))
              else None.

Lemma fetchMergeRequestDetails_notes_failure_witness :
  fetchMergeRequestDetails notes_fail_second
    (Some [mkApprovalEvent "2025-04-01T10:00:00.000Z"]) 2 = Some (mkDetails [] []).
Proof.
  apply (fetchMergeRequestDetails_notes_failure notes_fail_second _ 1 2).
  - intros p Hp. assert (p = 1%nat) as -> by lia.
    eexists _, _. split; [reflexivity|]. vm_compute. reflexivity.
  - reflexivity.
  - lia.
Defined.

(** [approvedAt] is the [created_at] of an approval event with the least
    time, [null] exactly when there is none; among events of equal least
    time the one listed first wins ([Array.prototype.sort] is stable). *)
Theorem approved_at_earliest_first (getTime : string -> Z) (d : Details) :
  (approved_at_of getTime d = None <-> approvalEvents d = []) /\
  (forall t, approved_at_of getTime d = Some t ->
     exists l1 e l2, approvalEvents d = (l1 ++ e :: l2)%list /\ ev_created_at e = t /\
       Forall (fun y => (getTime t < getTime (ev_created_at y))%Z) l1 /\
       forall e', In e' (approvalEvents d) -> (getTime t <= getTime (ev_created_at e'))%Z).
Proof.
  set (key := fun e => getTime (ev_created_at e)).
  assert (Hsnil : forall l : list ApprovalEvent, sort_by key l = [] -> l = []).
  { intros [|x l] Hs; [reflexivity|].
    assert (In x (sort_by key (x :: l))) by (apply in_sort_by; left; reflexivity).
    rewrite Hs in H. contradiction. }
  assert (Hdef : approved_at_of getTime d =
            match sort_by key (approvalEvents d) with
            | [] => None | e :: _ => Some (ev_created_at e) end).
  { unfold approved_at_of, key. destruct (approvalEvents d); reflexivity. }
  rewrite Hdef. split.
  - destruct (sort_by key (approvalEvents d)) eqn:Hs.
    + split; [intros _; now apply Hsnil|reflexivity].
    + split; [discriminate|]. intros He. rewrite He in Hs. discriminate.
  - intros t. destruct (sort_by key (approvalEvents d)) as [|e tl] eqn:Hs;
      [discriminate|]. intros Ht. injection Ht as <-.
    destruct (sort_by_head_first key _ e tl Hs) as (l1 & l2 & Hl & Hf).
    exists l1, e, l2. split; [exact Hl|]. split; [reflexivity|]. split; [exact Hf|].
    intros e' He'. exact (sort_by_head_min key _ e tl Hs e' He').
Qed.

(** Among the non-system notes, [first_comment_at] comes from the first one
    (in the order the API returned them) whose time is the least: no
    non-system note is earlier, and the ones listed before it are strictly
    later. *)
Theorem first_comment_first_of_earliest (getTime : string -> Z) (d : Details) :
  forall t, first_comment getTime d = Some t ->
  exists l1 n l2,
    List.filter (fun n => negb (note_system n)) (notes d) = (l1 ++ n :: l2)%list /\
    note_created_at n = t /\
    Forall (fun y => (getTime t < getTime (note_created_at y))%Z) l1 /\
    forall y, In y (List.filter (fun n => negb (note_system n)) (notes d)) ->
      (getTime t <= getTime (note_created_at y))%Z.
Proof.
  intros t. unfold first_comment. destruct (notes d) as [|n0 ns]; [discriminate|].
  destruct (sort_by _ _) as [|n tl] eqn:Hs; [discriminate|].
  intros Ht. injection Ht as <-.
  destruct (sort_by_head_first _ _ n tl Hs) as (l1 & l2 & Hl & Hf).
  exists l1, n, l2. split; [exact Hl|]. split; [reflexivity|]. split; [exact Hf|].
  intros y Hy. exact (sort_by_head_min _ _ n tl Hs y Hy).
Qed.

(** The minute of the hour of the three sample timestamps. *)
Definition sample_minute (s : string) : Z :=
  if String.eqb s "2025-04-01T09:07:00.000Z" then 7
  else if String.eqb s "2025-04-01T09:05:00.000Z" then 5
  else if String.eqb s "2025-04-01T09:03:00.000Z" then 3 else 0.

(** A human note at 09:07, a system note at 09:05, human notes at 09:03
    and again at 09:07. *)
Definition sample_notes_details : Details :=
  mkDetails [mkNote "2025-04-01T09:07:00.000Z" false;
             mkNote "2025-04-01T09:05:00.000Z" true;
             mkNote "2025-04-01T09:03:00.000Z" false;
             mkNote "2025-04-01T09:07:00.000Z" false] [].

Lemma first_comment_first_of_earliest_witness :
  first_comment sample_minute sample_notes_details = Some "2025-04-01T09:03:00.000Z" /\
  exists l1 n l2,
    List.filter (fun n => negb (note_system n)) (notes sample_notes_details)
      = (l1 ++ n :: l2)%list /\
    note_created_at n = "2025-04-01T09:03:00.000Z" /\
    Forall (fun y => (sample_minute "2025-04-01T09:03:00.000Z"
                      < sample_minute (note_created_at y))%Z) l1 /\
    forall y, In y (List.filter (fun n => negb (note_system n)) (notes sample_notes_details)) ->
      (sample_minute "2025-04-01T09:03:00.000Z" <= sample_minute (note_created_at y))%Z.
Proof.
  split; [vm_compute; reflexivity|].
  apply (first_comment_first_of_earliest sample_minute). vm_compute. reflexivity.
Defined.

(** ** processAndStoreMergeRequests together with fetchMergeRequests *)

Section SyncComposition.
Variable get_fails : Z -> Z -> bool.
Variable run_fails : SqlWrite -> bool.
Variable details_of : Z -> Z -> Details.
Variable getTime : string -> Z.

Local Abbreviation step := (process_one get_fails run_fails details_of getTime).
Local Abbreviation batch := (process_batch get_fails run_fails details_of getTime).
Local Abbreviation pasm :=
  (processAndStoreMergeRequests get_fails run_fails details_of getTime).

(** The whole function, lines 159-166 included: [await
    fetchMergeRequests(projectId)] first ([None] when the walk does not stop
    within the fuel). *)
Definition processAndStoreMergeRequests_fetching (api : endpoint RemoteMR)
    (fuel : nat) (projectId : Z) (project : Project) : option (M unit) :=
  match fetchMergeRequests api fuel with
  | Some mergeRequests => Some (pasm projectId project mergeRequests)
  | None => None
  end.

Lemma batch_projects_unchanged (projectId : Z) (mrs : list RemoteMR) :
  forall st st' res, batch projectId mrs st = (res, st') ->
  db_projects st' = db_projects st.
Proof.
  induction mrs as [|mr mrs IH]; intros st st' res H.
  - simpl in H. injection H as _ <-. reflexivity.
  - cbn [process_batch] in H. unfold mbind at 1, M_bind at 1 in H.
    destruct (step projectId mr st) as [r1 st1] eqn:H1.
    destruct (step_effect get_fails run_fails details_of getTime projectId mr st st1 r1 H1)
      as (Hp & _).
    destruct r1 as [e|[]].
    + injection H as _ <-. exact Hp.
    + rewrite (IH st1 st' res H). exact Hp.
Qed.

Lemma step_resolves (projectId : Z) (mr : RemoteMR) (st : St) :
  (forall w, run_fails w = false) ->
  exists st', step projectId mr st = (inr tt, st').
Proof.
  intros Hw.
  destruct (step_cases get_fails run_fails details_of getTime projectId mr st)
    as [(e & _ & _ & _ & H)|[(e & _ & _ & _ & H)|H]]; rewrite H; eauto;
    unfold upsert_path_result; rewrite Hw; eauto.
Qed.

Lemma batch_resolves (projectId : Z) (mrs : list RemoteMR) :
  (forall w, run_fails w = false) ->
  forall st, exists st', batch projectId mrs st = (inr tt, st').
Proof.
  intros Hw. induction mrs as [|mr mrs IH]; intros st; [eexists; reflexivity|].
  destruct (step_resolves projectId mr st Hw) as (st1 & H1).
  destruct (IH st1) as (st' & H2). exists st'.
  cbn [process_batch]. unfold mbind at 1, M_bind at 1. now rewrite H1.
Qed.

Lemma fetch_served_all (coll : list RemoteMR) (hdr : Z -> header) (fuel : nat) :
  (length coll / per_page + 2 <= fuel)%nat ->
  fetchMergeRequests (served coll hdr) fuel = Some coll.
Proof.
  intros Hfuel. unfold fetchMergeRequests.
  change 1%Z with (Z.of_nat 0 + 1)%Z.
  rewrite (mr_loop_served coll hdr fuel 0 []); [reflexivity|reflexivity|].
  rewrite Nat.mul_0_l, skipn_O. unfold per_page in *.
  assert ((length coll + 99) / 100 <= length coll / 100 + 1)%nat.
  { transitivity ((length coll + 1 * 100) / 100)%nat.
    - apply Nat.Div0.div_le_mono; lia.
    - rewrite Nat.div_add by lia. lia. }
  lia.
Qed.

(** The project row is written before any merge request: if that write is
    rejected nothing at all changes; once it succeeds it stays, however the
    rest of the run ends. An empty list writes nothing, not even the
    project. *)
Theorem processAndStore_project_first (projectId : Z) (project : Project)
    (mrs : list RemoteMR) (st st' : St) res :
  pasm projectId project mrs st = (res, st') ->
  (mrs = [] -> res = inr tt /\ st' = st) /\
  (mrs <> [] -> run_fails (WProject project) = true -> res = inl SqliteError /\ st' = st) /\
  (mrs <> [] -> run_fails (WProject project) = false ->
   db_projects st' = <[p_id project := project]> (db_projects st)).
Proof.
  intros H. destruct mrs as [|mr mrs].
  - cbn in H. injection H as <- <-. split; [auto|]. split; intros []; reflexivity.
  - split; [discriminate|].
    unfold processAndStoreMergeRequests, mbind, M_bind, saveProject in H.
    split; intros _ Hw; rewrite Hw in H.
    + injection H as <- <-. auto.
    + rewrite (batch_projects_unchanged projectId (mr :: mrs) _ st' res H). reflexivity.
Qed.

(** When the merge-request walk fails on some page, after [k] full pages,
    the run writes nothing: the project is not saved and no merge request
    is looked at. *)
Theorem processAndStore_fetch_failure_writes_nothing (api : endpoint RemoteMR)
    (k fuel : nat) (projectId : Z) (project : Project) :
  (forall p : nat, (1 <= p <= k)%nat ->
     exists b h, api (Z.of_nat p) = Some (mkResponse b h) /\ length b = per_page) ->
  api (Z.of_nat k + 1)%Z = None ->
  (k + 1 <= fuel)%nat ->
  exists m, processAndStoreMergeRequests_fetching api fuel projectId project = Some m /\
            forall st, m st = (inr tt, st).
Proof.
  intros Hfull Hfail Hfuel. unfold processAndStoreMergeRequests_fetching, fetchMergeRequests.
  change 1%Z with (Z.of_nat 0 + 1)%Z.
  rewrite (mr_loop_throws api k Hfull Hfail fuel 0 []); [|lia|lia].
  eexists. split; [reflexivity|]. intros st. reflexivity.
Qed.

(** With every write succeeding, a collection served 100 per page, enough
    iterations and distinct ids, the run resolves; every merge request of
    the collection then has a row that agrees with it on [state] and
    [updated_at] (or both are merged), and the project row is saved unless
    the collection is empty. *)
Theorem processAndStore_served_stores_all (coll : list RemoteMR) (hdr : Z -> header)
    (fuel : nat) (projectId : Z) (project : Project) (st : St) :
  (forall w, run_fails w = false) ->
  (length coll / per_page + 2 <= fuel)%nat ->
  NoDup (map mr_id coll) ->
  exists m st', processAndStoreMergeRequests_fetching (served coll hdr) fuel projectId project
                = Some m /\
    m st = (inr tt, st') /\
    (coll <> [] -> db_projects st' !! p_id project = Some project) /\
    forall mr, In mr coll ->
      exists r, db_merge_requests st' !! (mr_id mr, projectId) = Some r /\ synced r mr.
Proof.
  intros Hw Hfuel Hnd. unfold processAndStoreMergeRequests_fetching.
  rewrite (fetch_served_all coll hdr fuel Hfuel).
  destruct coll as [|mr mrs].
  - exists (mret tt), st. split; [reflexivity|]. split; [reflexivity|].
    split; [congruence|]. intros _ [].
  - set (st0 := set_db_projects (<[p_id project := project]> (db_projects st)) st).
    destruct (batch_resolves projectId (mr :: mrs) Hw st0) as (st' & Hb).
    exists (pasm projectId project (mr :: mrs)), st'. split; [reflexivity|].
    assert (Hrun : pasm projectId project (mr :: mrs) st = (inr tt, st')).
    { unfold processAndStoreMergeRequests, mbind, M_bind, saveProject.
      rewrite Hw. exact Hb. }
    split; [exact Hrun|]. split.
    + intros _. rewrite (batch_projects_unchanged projectId (mr :: mrs) st0 st' _ Hb).
      cbn. apply lookup_insert_eq.
    + destruct (batch_rows_inv get_fails run_fails details_of getTime projectId
                  (mr :: mrs) st0 st' Hb) as (_ & _ & Hs).
      exact (Hs Hnd).
Qed.

End SyncComposition.

Lemma processAndStore_project_first_witness :
  let run := processAndStoreMergeRequests never_fails2 no_write_fails no_details epoch_zero
               7 (mkProject 7 "web" "murid/web" "2024-01-01") sample_batch empty_store in
  run = (fst run, snd run) /\
  (sample_batch = [] -> fst run = inr tt /\ snd run = empty_store) /\
  (sample_batch <> [] -> no_write_fails (WProject (mkProject 7 "web" "murid/web" "2024-01-01")) = true ->
   fst run = inl SqliteError /\ snd run = empty_store) /\
  (sample_batch <> [] -> no_write_fails (WProject (mkProject 7 "web" "murid/web" "2024-01-01")) = false ->
   db_projects (snd run) =
     <[p_id (mkProject 7 "web" "murid/web" "2024-01-01") :=
         mkProject 7 "web" "murid/web" "2024-01-01"]> (db_projects empty_store)).
Proof.
  intros run. split; [reflexivity|].
  apply (processAndStore_project_first never_fails2 no_write_fails no_details epoch_zero
           7 (mkProject 7 "web" "murid/web" "2024-01-01") sample_batch empty_store
           (snd run) (fst run)).
  reflexivity.
Defined.

(** A first page of 100 merge requests, then a failing request. *)
Definition mrs100 : list RemoteMR :=
  map (fun i => sample_remote (Z.of_nat i) "opened" "u") (seq 0 100).
Definition fail_after_first_mr : endpoint RemoteMR :=
  fun page => if Z.eqb page 1 then Some (mkResponse mrs100 HAbsent) else None.

Lemma processAndStore_fetch_failure_writes_nothing_witness :
  exists m, processAndStoreMergeRequests_fetching never_fails2 no_write_fails no_details
              epoch_zero (fail_after_first_mr) 2 7 (mkProject 7 "web" "murid/web" "2024-01-01")
            = Some m /\ forall st, m st = (inr tt, st).
Proof.
  apply (processAndStore_fetch_failure_writes_nothing never_fails2 no_write_fails
           no_details epoch_zero fail_after_first_mr 1 2).
  - intros p Hp. assert (p = 1%nat) as -> by lia.
    eexists _, _. split; [reflexivity|]. vm_compute. reflexivity.
  - reflexivity.
  - lia.
Defined.

Lemma processAndStore_served_stores_all_witness :
  exists m st', processAndStoreMergeRequests_fetching never_fails2 no_write_fails no_details
                  epoch_zero (served sample_batch (fun _ => HAbsent)) 2 7
                  (mkProject 7 "web" "murid/web" "2024-01-01") = Some m /\
    m empty_store = (inr tt, st') /\
    (sample_batch <> [] ->
       db_projects st' !! p_id (mkProject 7 "web" "murid/web" "2024-01-01")
       = Some (mkProject 7 "web" "murid/web" "2024-01-01")) /\
    forall mr, In mr sample_batch ->
      exists r, db_merge_requests st' !! (mr_id mr, 7) = Some r /\ synced r mr.
Proof.
  apply (processAndStore_served_stores_all never_fails2 no_write_fails no_details epoch_zero).
  - intros w. reflexivity.
  - vm_compute. lia.
  - apply (bool_decide_unpack _). vm_compute. reflexivity.
Defined.

(** ** The analytics queries *)

Open Scope Q_scope.

Lemma filter_mono_length {X : Type} (f g h : X -> bool) (l : list X) :
  (forall x, g x = true -> h x = true) ->
  (length (List.filter f (List.filter g l)) <= length (List.filter f (List.filter h l)))%nat.
Proof.
  intros Hgh. induction l as [|x l IH]; [reflexivity|]. cbn [List.filter].
  destruct (g x) eqn:Hg.
  - rewrite (Hgh x Hg). cbn [List.filter]. destruct (f x); cbn [length]; lia.
  - destruct (h x); [cbn [List.filter]; destruct (f x); cbn [length]|]; lia.
Qed.

Lemma in_distinct_squads (s : string) (rows : list MergeRequestData) :
  In s (distinct_squads rows) <-> exists r, In r rows /\ squad r = Some s.
Proof.
  unfold distinct_squads. rewrite nodup_In, in_flat_map.
  split; intros (r & Hr & Hs); exists r; split; auto;
    destruct (squad r) as [s'|]; cbn in *; intuition congruence.
Qed.

Lemma in_rows_of_squad (s : string) (rows : list MergeRequestData) r :
  In r (rows_of_squad s rows) <-> In r rows /\ squad r = Some s.
Proof.
  unfold rows_of_squad. rewrite filter_In.
  destruct (squad r) as [s'|]; [rewrite String.eqb_eq|]; intuition congruence.
Qed.

Lemma rows_of_squad_nonempty (s : string) (rows : list MergeRequestData) :
  In s (distinct_squads rows) -> (1 <= length (rows_of_squad s rows))%nat.
Proof.
  intros H. apply in_distinct_squads in H as (r & Hr & Hs).
  assert (Hin : In r (rows_of_squad s rows)) by (apply in_rows_of_squad; auto).
  destruct (rows_of_squad s rows); [contradiction|cbn; lia].
Qed.

Lemma list_sum_map_add {X : Type} (f g : X -> nat) (l : list X) :
  list_sum (map (fun x => f x + g x)%nat l) = (list_sum (map f l) + list_sum (map g l))%nat.
Proof.
  induction l as [|x l IH]; [reflexivity|].
  cbn [map]. unfold list_sum in *. cbn [fold_right]. lia.
Qed.

Lemma list_sum_indicator_out (x : string) (D : list string) :
  ~ In x D -> list_sum (map (fun s => if String.eqb x s then 1 else 0)%nat D) = 0%nat.
Proof.
  induction D as [|y D IH]; intros Hn; [reflexivity|]. cbn.
  destruct (String.eqb_spec x y) as [->|_]; [exfalso; apply Hn; now left|].
  apply IH. intros H. apply Hn. now right.
Qed.

Lemma list_sum_indicator_in (x : string) (D : list string) :
  List.NoDup D -> In x D ->
  list_sum (map (fun s => if String.eqb x s then 1 else 0)%nat D) = 1%nat.
Proof.
  induction D as [|y D IH]; intros Hnd Hin; [contradiction|].
  inversion Hnd as [|? ? Hy Hnd']; subst. cbn.
  destruct (String.eqb_spec x y) as [->|Hne].
  - now rewrite list_sum_indicator_out.
  - destruct Hin as [->|Hin]; [congruence|]. now apply IH.
Qed.

(** Grouping a list of rows that all have a squad, over a duplicate-free
    list of squads covering them, counts each row once. *)
Lemma groups_partition (D : list string) (rows : list MergeRequestData) :
  List.NoDup D ->
  (forall r, In r rows -> exists s, squad r = Some s /\ In s D) ->
  list_sum (map (fun s => length (rows_of_squad s rows)) D) = length rows.
Proof.
  intros Hnd. induction rows as [|r rows IH]; intros Hcov.
  - cbn. clear Hnd Hcov. induction D; cbn; auto.
  - destruct (Hcov r (or_introl eq_refl)) as (s0 & Hs0 & Hin).
    assert (Heq : map (fun s => length (rows_of_squad s (r :: rows))) D =
                  map (fun s => (if String.eqb s0 s then 1 else 0)
                                + length (rows_of_squad s rows))%nat D).
    { apply map_ext. intros s. unfold rows_of_squad. cbn [List.filter].
      rewrite Hs0. destruct (String.eqb s0 s); reflexivity. }
    rewrite Heq, list_sum_map_add, list_sum_indicator_in by assumption.
    rewrite IH; [reflexivity|]. intros r' Hr'. apply Hcov. now right.
Qed.

Lemma late_where_stats_where (strftime_s : string -> option Z) (projectId : Z)
    (t : Q) (startDate endDate : option string) (r : MergeRequestData) :
  late_where strftime_s projectId t startDate endDate r = true ->
  stats_where projectId startDate endDate r = true.
Proof. unfold late_where, stats_where. rewrite !andb_true_iff. tauto. Qed.

Lemma late_where_antitone (strftime_s : string -> option Z) (projectId : Z)
    (t1 t2 : Q) (startDate endDate : option string) (r : MergeRequestData) :
  t1 <= t2 ->
  late_where strftime_s projectId t2 startDate endDate r = true ->
  late_where strftime_s projectId t1 startDate endDate r = true.
Proof.
  intros Ht. unfold late_where. rewrite !andb_true_iff.
  intros (H & Hl). split; [exact H|]. revert Hl. unfold late_predicate.
  destruct (case_minutes strftime_s _ _) as [m|]; [|discriminate].
  rewrite !negb_true_iff. intros H2. apply not_true_iff_false. intros H1.
  apply Qle_bool_iff in H1. apply not_true_iff_false in H2. apply H2.
  apply Qle_bool_iff. now apply (Qle_trans _ t1).
Qed.

(** Shape of the result of [getMergeRequestStats]: one row per squad, no
    squad twice; every row counts at least one merge request and no more
    merged ones than it counts; the totals add up to the number of selected
    rows, so each selected merge request is counted exactly once. *)
Theorem getMergeRequestStats_groups (strftime_s : string -> option Z) (projectId : Z)
    (startDate endDate : option string) (table : list MergeRequestData) :
  let out := getMergeRequestStats strftime_s projectId startDate endDate table in
  List.NoDup (map sr_squad out) /\
  (forall row, In row out ->
     (1 <= sr_total_mrs row)%nat /\ (sr_merged_mrs row <= sr_total_mrs row)%nat) /\
  list_sum (map sr_total_mrs out)
    = length (List.filter (stats_where projectId startDate endDate) table).
Proof.
  intros out. unfold out, getMergeRequestStats.
  set (sel := List.filter (stats_where projectId startDate endDate) table).
  split; [|split].
  - rewrite map_map. cbn [sr_squad stats_row]. rewrite map_id. apply NoDup_nodup.
  - intros row Hrow. apply in_map_iff in Hrow as (s & <- & Hs). cbn.
    split; [now apply rows_of_squad_nonempty|apply filter_length_le].
  - rewrite map_map. cbn [sr_total_mrs stats_row].
    apply groups_partition; [apply NoDup_nodup|].
    intros r Hr. pose proof Hr as Hsel. unfold sel in Hr. apply filter_In in Hr as [_ Hw].
    unfold stats_where in Hw. rewrite !andb_true_iff in Hw.
    destruct Hw as (((_ & _) & Hsq) & _).
    destruct (squad r) as [s|] eqn:Hsr; [|discriminate].
    exists s. split; [reflexivity|]. apply in_distinct_squads. exists r. auto.
Qed.

(** Every group of [countMrsWithLateFirstComment] is a group of
    [getMergeRequestStats] over the same project and dates, with a count
    between 1 and that group's total. *)
Theorem countLate_within_stats (strftime_s : string -> option Z) (projectId : Z)
    (t : Q) (startDate endDate : option string) (table : list MergeRequestData) :
  forall s c,
  In (s, c) (countMrsWithLateFirstComment strftime_s projectId t startDate endDate table) ->
  (1 <= c)%nat /\
  exists row, In row (getMergeRequestStats strftime_s projectId startDate endDate table) /\
              sr_squad row = s /\ (c <= sr_total_mrs row)%nat.
Proof.
  intros s c Hin. unfold countMrsWithLateFirstComment in Hin.
  apply in_map_iff in Hin as (s' & Heq & Hs). injection Heq as -> <-.
  split; [now apply rows_of_squad_nonempty|].
  set (sel := List.filter (stats_where projectId startDate endDate) table).
  exists (stats_row strftime_s s (rows_of_squad s sel)). split; [|split; [reflexivity|]].
  - unfold getMergeRequestStats. apply in_map_iff. exists s. split; [reflexivity|].
    apply in_distinct_squads in Hs as (r & Hr & Hsq).
    apply in_distinct_squads. exists r. split; [|exact Hsq].
    apply filter_In in Hr as [Hr Hw]. apply filter_In. split; [exact Hr|].
    exact (late_where_stats_where strftime_s projectId t startDate endDate r Hw).
  - cbn [sr_total_mrs stats_row]. unfold rows_of_squad, sel.
    apply filter_mono_length. apply late_where_stats_where.
Qed.

(** Raising the threshold never makes a squad's late count grow, nor adds a
    squad. *)
Theorem countLate_antitone (strftime_s : string -> option Z) (projectId : Z)
    (t1 t2 : Q) (startDate endDate : option string) (table : list MergeRequestData) :
  t1 <= t2 ->
  forall s c2,
  In (s, c2) (countMrsWithLateFirstComment strftime_s projectId t2 startDate endDate table) ->
  exists c1,
    In (s, c1) (countMrsWithLateFirstComment strftime_s projectId t1 startDate endDate table) /\
    (c2 <= c1)%nat.
Proof.
  intros Ht s c2 Hin. unfold countMrsWithLateFirstComment in *.
  apply in_map_iff in Hin as (s' & Heq & Hs). injection Heq as -> <-.
  eexists. split.
  - apply in_map_iff. exists s. split; [reflexivity|].
    apply in_distinct_squads in Hs as (r & Hr & Hsq).
    apply in_distinct_squads. exists r. split; [|exact Hsq].
    apply filter_In in Hr as [Hr Hw]. apply filter_In. split; [exact Hr|].
    exact (late_where_antitone strftime_s projectId t1 t2 startDate endDate r Ht Hw).
  - unfold rows_of_squad. apply filter_mono_length.
    intros r. now apply late_where_antitone.
Qed.

(** A closed merge request, one without a squad, or one of another project
    changes neither query, wherever it sits in the table. *)
Theorem queries_ignore_row (strftime_s : string -> option Z) (projectId : Z) (t : Q)
    (startDate endDate : option string) (l1 l2 : list MergeRequestData)
    (r : MergeRequestData) :
  state r = "closed" \/ squad r = None \/ project_id r <> projectId ->
  getMergeRequestStats strftime_s projectId startDate endDate (l1 ++ r :: l2)
    = getMergeRequestStats strftime_s projectId startDate endDate (l1 ++ l2) /\
  countMrsWithLateFirstComment strftime_s projectId t startDate endDate (l1 ++ r :: l2)
    = countMrsWithLateFirstComment strftime_s projectId t startDate endDate (l1 ++ l2).
Proof.
  intros Hr.
  assert (Hs : stats_where projectId startDate endDate r = false).
  { apply not_true_iff_false. unfold stats_where. rewrite !andb_true_iff.
    intros (((H1 & H2) & H3) & _). destruct Hr as [H|[H|Hp]].
    - rewrite H in H2. discriminate.
    - rewrite H in H3. discriminate.
    - apply Z.eqb_eq in H1. contradiction. }
  assert (Hl : late_where strftime_s projectId t startDate endDate r = false).
  { destruct (late_where _ _ _ _ _ r) eqn:Hw; [|reflexivity].
    rewrite (late_where_stats_where _ _ _ _ _ _ Hw) in Hs. discriminate. }
  unfold getMergeRequestStats, countMrsWithLateFirstComment.
  rewrite !List.filter_app. cbn [List.filter]. now rewrite Hs, Hl.
Qed.

Lemma queries_ignore_row_witness :
  (getMergeRequestStats sample_strftime 7 None None
     (three_mrs ++ (let m := sample_mr 9 "2025-04-01T09:00:00.000Z" None in
                    {| id := id m; project_id := project_id m; title := title m;
                       description := description m; created_at := created_at m;
                       updated_at := updated_at m; state := "closed";
                       author_id := author_id m; author_username := author_username m;
                       first_comment_at := Some "2025-04-01T09:30:00.000Z";
                       approved_at := approved_at m; merged_at := merged_at m;
                       squad := squad m |}) :: [])
   = getMergeRequestStats sample_strftime 7 None None (three_mrs ++ [])) /\
  (countMrsWithLateFirstComment sample_strftime 7 15 None None
     (three_mrs ++ (let m := sample_mr 9 "2025-04-01T09:00:00.000Z" None in
                    {| id := id m; project_id := project_id m; title := title m;
                       description := description m; created_at := created_at m;
                       updated_at := updated_at m; state := "closed";
                       author_id := author_id m; author_username := author_username m;
                       first_comment_at := Some "2025-04-01T09:30:00.000Z";
                       approved_at := approved_at m; merged_at := merged_at m;
                       squad := squad m |}) :: [])
   = countMrsWithLateFirstComment sample_strftime 7 15 None None (three_mrs ++ [])).
Proof.
  apply queries_ignore_row. left. reflexivity.
Defined.

Lemma countLate_within_stats_witness :
  (1 <= 1)%nat /\
  exists row, In row (getMergeRequestStats sample_strftime 7 None None three_mrs) /\
              sr_squad row = "WEB" /\ (1 <= sr_total_mrs row)%nat.
Proof.
  apply (countLate_within_stats sample_strftime 7 15 None None three_mrs "WEB" 1).
  vm_compute. left. reflexivity.
Defined.

Lemma countLate_antitone_witness :
  exists c1,
    In ("WEB", c1) (countMrsWithLateFirstComment sample_strftime 7 5 None None three_mrs) /\
    (1 <= c1)%nat.
Proof.
  apply (countLate_antitone sample_strftime 7 5 15 None None three_mrs).
  - vm_compute. discriminate.
  - vm_compute. left. reflexivity.
Defined.

Close Scope Q_scope.

Lemma string_compare_extension (e s : string) :
  s <> EmptyString -> String.compare (e ++ s) e = Gt.
Proof.
  intros Hs. induction e as [|a e IH].
  - destruct s; [congruence|reflexivity].
  - change (String.compare (String a (e ++ s)) (String a e) = Gt).
    unfold String.compare; fold String.compare.
    replace (Ascii.compare a a) with Eq by (symmetry; apply N.compare_refl).
    exact IH.
Qed.

(** The date bounds compare the whole [created_at] text with the given
    date: a [created_at] that extends the end date (any time of that day in
    ISO 8601) is left out of both queries, and kept by the same date as a
    start bound. *)
Theorem end_bound_excludes_extensions (strftime_s : string -> option Z)
    (projectId : Z) (t : Q) (d suffix : string) (r : MergeRequestData) :
  d <> EmptyString -> suffix <> EmptyString -> created_at r = (d ++ suffix) ->
  stats_where projectId None (Some d) r = false /\
  late_where strftime_s projectId t None (Some d) r = false /\
  date_filter (Some d) None r = true.
Proof.
  intros Hd Hs Hc.
  assert (Htr : truthy (Some d) = Some d).
  { unfold truthy. destruct (String.eqb_spec d "") as [->|_]; [congruence|reflexivity]. }
  assert (Hle : date_filter None (Some d) r = false).
  { unfold date_filter, sql_text_le. rewrite Htr, Hc.
    now rewrite string_compare_extension. }
  unfold stats_where, late_where. rewrite Hle, !andb_false_r, !andb_false_l.
  split; [reflexivity|]. split; [reflexivity|].
  unfold date_filter, sql_text_ge. rewrite Htr, Hc, string_compare_extension by exact Hs.
  reflexivity.
Qed.

Lemma end_bound_excludes_extensions_witness :
  stats_where 7 None (Some "2025-04-30") mr_on_0430 = false /\
  late_where sample_strftime 7 60 None (Some "2025-04-30") mr_on_0430 = false /\
  date_filter (Some "2025-04-30") None mr_on_0430 = true.
Proof.
  apply (end_bound_excludes_extensions sample_strftime 7 60 "2025-04-30" "T10:00:00.000Z").
  - discriminate.
  - discriminate.
  - reflexivity.
Defined.

(* ================================================================== *)
(** ** formatTime (index.ts, lines 261-275) *)

Open Scope Q_scope.

(** [String(n)] for an integer [n]: its decimal digits, with a minus sign
    when negative. *)
Definition digit_char (d : N) : ascii := ascii_of_N (48 + d).
Fixpoint N_digits (fuel : nat) (n : N) (acc : string) : string :=
  match fuel with
  | O => acc
  | S f =>
      let acc' := String (digit_char (N.modulo n 10)) acc in
      if N.ltb n 10 then acc' else N_digits f (N.div n 10) acc'
  end.
Definition N_to_string (n : N) : string := N_digits (S (N.size_nat n)) n "".
Definition Z_to_string (z : Z) : string :=
  match z with
  | Zneg p => String "-" (N_to_string (Npos p))
  | _ => N_to_string (Z.to_N z)
  end.

(** [Math.trunc] and the JavaScript remainder [x % d = x - d * trunc(x / d)]. *)
Definition js_trunc (q : Q) : Z :=
  if Qle_bool 0 q then Qfloor q else Z.opp (Qfloor (- q)).
Definition js_mod (x d : Q) : Q := x - d * inject_Z (js_trunc (x / d)).

(** The argument of [formatTime]: a number, [null], or [undefined]
    (what a missing property reads as); [isNaN(undefined)] is true. *)
Inductive fmt_arg :=
| FNull
| FUndefined
| FNumber (q : Q).

(** [formatTime]; [Math.floor] is [Qfloor]. *)
Definition formatTime (minutes : fmt_arg) : string :=
  match minutes with
  | FNull | FUndefined => "N/A"
  | FNumber m =>
      let days := Qfloor (m / (60 * 24)) in
      let hours := Qfloor (js_mod m (60 * 24) / 60) in
      let mins := Qfloor (js_mod m 60) in
      if Z.ltb 0 days then
        Z_to_string days ++ "d " ++ Z_to_string hours ++ "h " ++ Z_to_string mins ++ "m"
      else if Z.ltb 0 hours then
        Z_to_string hours ++ "h " ++ Z_to_string mins ++ "m"
      else Z_to_string mins ++ "m"
  end.

Lemma Qfloor_unique (z : Z) (y : Q) :
  inject_Z z <= y -> y < inject_Z (z + 1) -> Qfloor y = z.
Proof.
  intros H1 H2. pose proof (Qfloor_le y) as F1. pose proof (Qlt_floor y) as F2.
  assert (A : (Qfloor y < z + 1)%Z).
  { rewrite Zlt_Qlt. apply (Qle_lt_trans _ y); assumption. }
  assert (B : (z < Qfloor y + 1)%Z).
  { rewrite Zlt_Qlt. apply (Qle_lt_trans _ y); assumption. }
  lia.
Qed.

Lemma Qfloor_div (x : Q) (d : Z) :
  (0 < d)%Z -> Qfloor (x / inject_Z d) = (Qfloor x / d)%Z.
Proof.
  intros Hd. set (n := Qfloor x). pose proof (Qfloor_le x) as F1. pose proof (Qlt_floor x) as F2.
  fold n in F1, F2.
  assert (Z1 : (n / d * d <= n)%Z) by (rewrite Z.mul_comm; apply Z.mul_div_le; lia).
  assert (Z2 : (n + 1 <= (n / d + 1) * d)%Z).
  { pose proof (Z.mod_pos_bound n d Hd). pose proof (Z.div_mod n d ltac:(lia)). nia. }
  rewrite Zle_Qle, inject_Z_mult in Z1. rewrite Zle_Qle, inject_Z_mult in Z2.
  rewrite inject_Z_plus in F2. rewrite inject_Z_plus, inject_Z_plus in Z2.
  assert (Hdq : 0 < inject_Z d) by (change 0 with (inject_Z 0); rewrite <- Zlt_Qlt; exact Hd).
  apply Qfloor_unique.
  - apply Qle_shift_div_l; [exact Hdq|]. apply (Qle_trans _ (inject_Z n)); [exact Z1|exact F1].
  - apply Qlt_shift_div_r; [exact Hdq|]. rewrite inject_Z_plus.
    apply (Qlt_le_trans _ (inject_Z n + 1)); [exact F2|exact Z2].
Qed.

Lemma Qfloor_sub_int (y : Q) (k : Z) : Qfloor (y - inject_Z k) = (Qfloor y - k)%Z.
Proof.
  pose proof (Qfloor_le y) as F1. pose proof (Qlt_floor y) as F2.
  rewrite inject_Z_plus in F2.
  apply Qfloor_unique.
  - unfold Z.sub. rewrite inject_Z_plus, inject_Z_opp. lra.
  - unfold Z.sub. rewrite !inject_Z_plus, inject_Z_opp. lra.
Qed.

Lemma js_trunc_nonneg (q : Q) : 0 <= q -> js_trunc q = Qfloor q.
Proof. intros H. unfold js_trunc. apply Qle_bool_iff in H. now rewrite H. Qed.

Lemma js_trunc_neg (q : Q) : q < 0 -> js_trunc q = Z.opp (Qfloor (- q)).
Proof.
  intros H. unfold js_trunc. destruct (Qle_bool 0 q) eqn:E; [|reflexivity].
  apply Qle_bool_iff in E. exfalso. apply (Qlt_irrefl 0). now apply (Qle_lt_trans _ q).
Qed.

Lemma div_nonneg (x : Q) (d : Z) : (0 < d)%Z -> 0 <= x -> 0 <= x / inject_Z d.
Proof.
  intros Hd Hx. apply Qle_shift_div_l.
  - change 0 with (inject_Z 0). now rewrite <- Zlt_Qlt.
  - now rewrite Qmult_0_l.
Qed.

Lemma js_mod_nonneg (x : Q) (d : Z) : (0 < d)%Z -> 0 <= x ->
  js_mod x (inject_Z d) == x - inject_Z (d * (Qfloor x / d)).
Proof.
  intros Hd Hx. unfold js_mod. rewrite js_trunc_nonneg by now apply div_nonneg.
  rewrite Qfloor_div by exact Hd. now rewrite inject_Z_mult.
Qed.

Lemma formatTime_parts (m : Q) : 0 <= m ->
  Qfloor (m / (60 * 24)) = (Qfloor m / 1440)%Z /\
  Qfloor (js_mod m (60 * 24) / 60) = ((Qfloor m mod 1440) / 60)%Z /\
  Qfloor (js_mod m 60) = (Qfloor m mod 60)%Z.
Proof.
  intros Hm. set (n := Qfloor m).
  change (60 * 24) with (inject_Z 1440). change 60 with (inject_Z 60).
  split; [|split].
  - now apply Qfloor_div.
  - assert (E : js_mod m (inject_Z 1440) / inject_Z 60
                 == m / inject_Z 60 - inject_Z (24 * (n / 1440))).
    { rewrite (js_mod_nonneg m 1440 eq_refl Hm). rewrite !inject_Z_mult.
      fold n. field. }
    rewrite (Qfloor_comp _ _ E).
    rewrite Qfloor_sub_int, Qfloor_div by lia. fold n.
    pose proof (Z.div_mod n 1440 ltac:(lia)) as Hn.
    set (q := (n / 1440)%Z) in *. set (r := (n mod 1440)%Z) in *.
    rewrite Hn. replace (1440 * q + r)%Z with (r + (24 * q) * 60)%Z by lia.
    rewrite Z.div_add by lia. lia.
  - rewrite (Qfloor_comp _ _ (js_mod_nonneg m 60 eq_refl Hm)).
    rewrite Qfloor_sub_int. fold n. rewrite Z.mod_eq by lia. lia.
Qed.

Lemma js_mod_neg_bounds (x : Q) (d : Z) : (0 < d)%Z -> x < 0 ->
  - inject_Z d < js_mod x (inject_Z d) /\ js_mod x (inject_Z d) <= 0.
Proof.
  intros Hd Hx.
  assert (Hdq : 0 < inject_Z d) by (change 0 with (inject_Z 0); rewrite <- Zlt_Qlt; exact Hd).
  set (y := x / inject_Z d).
  assert (Hy : y < 0).
  { unfold y. apply Qlt_shift_div_r; [exact Hdq|]. now rewrite Qmult_0_l. }
  unfold js_mod. fold y. rewrite js_trunc_neg by exact Hy.
  set (f := Qfloor (- y)).
  pose proof (Qfloor_le (- y)) as F1. pose proof (Qlt_floor (- y)) as F2. fold f in F1, F2.
  rewrite inject_Z_plus in F2. change (inject_Z 1) with 1 in F2.
  assert (Hx' : x == inject_Z d * y) by (unfold y; field; intros H; rewrite H in Hdq; discriminate).
  assert (E : x - inject_Z d * inject_Z (- f) == inject_Z d * (y + inject_Z f)).
  { rewrite Hx', inject_Z_opp. ring. }
  rewrite E. split.
  - setoid_replace (- inject_Z d) with (inject_Z d * (-1)) using relation Qeq by ring.
    apply Qmult_lt_l; [exact Hdq|]. lra.
  - setoid_replace 0 with (inject_Z d * 0) using relation Qeq by ring.
    apply Qmult_le_l; [exact Hdq|]. lra.
Qed.

(** On a non-negative number of minutes [formatTime] prints the whole days,
    hours and minutes of its floor, leaving out leading zero units. *)
Theorem formatTime_nonneg (m : Q) : 0 <= m ->
  let n := Qfloor m in
  formatTime (FNumber m) =
    if Z.ltb 0 (n / 1440) then
      Z_to_string (n / 1440) ++ "d " ++ Z_to_string ((n mod 1440) / 60) ++ "h "
        ++ Z_to_string (n mod 60) ++ "m"
    else if Z.ltb 0 ((n mod 1440) / 60) then
      Z_to_string ((n mod 1440) / 60) ++ "h " ++ Z_to_string (n mod 60) ++ "m"
    else Z_to_string (n mod 60) ++ "m".
Proof.
  intros Hm n. destruct (formatTime_parts m Hm) as (A & B & C).
  unfold formatTime. cbv beta iota zeta. rewrite A, B, C. reflexivity.
Qed.

(** On a negative number of minutes neither days nor hours are printed:
    the result is [Math.floor(minutes % 60)] minutes, between -60 and 0. *)
Theorem formatTime_negative (m : Q) : m < 0 ->
  formatTime (FNumber m) = Z_to_string (Qfloor (js_mod m 60)) ++ "m" /\
  (-60 <= Qfloor (js_mod m 60) <= 0)%Z.
Proof.
  intros Hm.
  assert (Hdays : (Qfloor (m / (60 * 24)) < 0)%Z).
  { change (60 * 24) with (inject_Z 1440).
    assert (m / inject_Z 1440 < 0).
    { apply Qlt_shift_div_r; [reflexivity|]. now rewrite Qmult_0_l. }
    pose proof (Qfloor_le (m / inject_Z 1440)).
    rewrite Zlt_Qlt. change (inject_Z 0) with 0. apply (Qle_lt_trans _ _ _ H0 H). }
  assert (Hhours : (Qfloor (js_mod m (60 * 24) / 60) <= 0)%Z).
  { change (60 * 24) with (inject_Z 1440).
    destruct (js_mod_neg_bounds m 1440 eq_refl Hm) as [_ H].
    rewrite <- (Qfloor_Z 0). apply Qfloor_resp_le.
    apply Qle_shift_div_r; [reflexivity|]. now rewrite Qmult_0_l. }
  destruct (js_mod_neg_bounds m 60 eq_refl Hm) as [L U].
  split.
  - unfold formatTime. cbv beta iota zeta.
    replace (Z.ltb 0 (Qfloor (m / (60 * 24)))) with false by (symmetry; apply Z.ltb_ge; lia).
    replace (Z.ltb 0 (Qfloor (js_mod m (60 * 24) / 60))) with false by (symmetry; apply Z.ltb_ge; lia).
    reflexivity.
  - split.
    + rewrite <- (Qfloor_Z (-60)). apply Qfloor_resp_le. apply Qlt_le_weak. exact L.
    + rewrite <- (Qfloor_Z 0). apply Qfloor_resp_le. exact U.
Qed.

Lemma formatTime_nonneg_witness :
  formatTime (FNumber (3061 # 2)) = "1d 1h 30m".
Proof.
  pose proof (formatTime_nonneg (3061 # 2) ltac:(unfold Qle; simpl; lia)) as H.
  cbv zeta in H. rewrite H. vm_compute. reflexivity.
Defined.

Lemma formatTime_negative_witness :
  formatTime (FNumber (-90)) = "-30m".
Proof.
  destruct (formatTime_negative (-90) ltac:(unfold Qlt; simpl; lia)) as [H _].
  rewrite H. vm_compute. reflexivity.
Defined.

Close Scope Q_scope.

(* ================================================================== *)
(** ** displayMergeRequestStats (index.ts, lines 278-311) *)

(** A property of a JavaScript array read with a name that is not an
    index: arrays have [length] and nothing else of that kind. *)
Inductive prop_val :=
| PUndefined
| PNumber (n : nat).

Definition array_prop {X : Type} (l : list X) (name : string) : prop_val :=
  if String.eqb name "length" then PNumber (length l) else PUndefined.

(** [v > 0]: [undefined] converts to NaN. *)
Definition prop_gt0 (v : prop_val) : bool :=
  match v with PUndefined => false | PNumber n => Nat.ltb 0 n end.

(** [`${v}`] *)
Definition prop_to_string (v : prop_val) : string :=
  match v with PUndefined => "undefined" | PNumber n => Z_to_string (Z.of_nat n) end.

Definition prop_fmt_arg (v : prop_val) : fmt_arg :=
  match v with PUndefined => FUndefined | PNumber n => FNumber (inject_Z (Z.of_nat n)) end.

(** [Math.round(a / b * 100)]; NaN when an operand is not a number. *)
Definition js_round_pct (a : option Q) (b : prop_val) : string :=
  match a, b with
  | Some x, PNumber n =>
      Z_to_string (Qfloor (x / inject_Z (Z.of_nat n) * 100 + (1 # 2))%Q)
  | _, _ => "NaN"
  end.

(** An array of row objects as a number: [''] (no row) is 0, otherwise
    ['[object Object],...'] is NaN. *)
Definition rows_to_number {X : Type} (l : list X) : option Q :=
  match l with [] => Some 0%Q | _ => None end.

(** [`${rows}`] for an array of row objects. *)
Definition rows_to_string {X : Type} (l : list X) : string :=
  String.concat "," (map (fun _ => "[object Object]") l).

Definition nl : string := String (ascii_of_nat 10) EmptyString.

(** [dateRangeText] *)
Definition date_range_text (startDate endDate : option string) : string :=
  match truthy startDate, truthy endDate with
  | Some s, Some e => "from " ++ s ++ " to " ++ e
  | Some s, None => "after " ++ s
  | None, Some e => "before " ++ e
  | None, None => "all time"
  end.

(** The lines [displayMergeRequestStats] logs. [stats] is the array of
    rows [getMergeRequestStats] resolves with, [lateCommentCount] the array
    of [countMrsWithLateFirstComment] once a threshold is given. *)
Definition displayMergeRequestStats (strftime_s : string -> option Z)
    (table : list MergeRequestData) (projectId : Z)
    (startDate endDate : option string) (commentThreshold : option Q) : list string :=
  let stats := getMergeRequestStats strftime_s projectId startDate endDate table in
  let total := array_prop stats "totalMRs" in
  let merged := array_prop stats "mergedMRs" in
  let merged_num := match merged with PNumber n => Some (inject_Z (Z.of_nat n)) | PUndefined => None end in
  app [nl ++ "----- Merge Request Statistics (" ++ date_range_text startDate endDate ++ ") -----";
   "Total MRs: " ++ prop_to_string total;
   "Merged MRs: " ++ prop_to_string merged ++ " ("
     ++ (if prop_gt0 total then js_round_pct merged_num total else "0") ++ "%)";
   "Average time to first comment: "
     ++ formatTime (prop_fmt_arg (array_prop stats "avgTimeToFirstComment"));
   "Average time to approval: "
     ++ formatTime (prop_fmt_arg (array_prop stats "avgTimeToApproval"));
   "Average time to merge: "
     ++ formatTime (prop_fmt_arg (array_prop stats "avgTimeToMerge"))]
  (app
  match commentThreshold with
  | Some t =>
      let lateCommentCount :=
        countMrsWithLateFirstComment strftime_s projectId t startDate endDate table in
      [nl ++ "MRs with first comment after " ++ formatTime (FNumber t) ++ ": "
         ++ rows_to_string lateCommentCount ++ " ("
         ++ (if prop_gt0 total then js_round_pct (rows_to_number lateCommentCount) total
             else "0") ++ "%)"]
  | None => []
  end
  ["------------------------------------"]).

(** The report reads fields that the array of rows does not have: whatever
    the database holds, the totals print as [undefined], the percentages as
    0 and the averages as [N/A]; the late-comment line prints
    [[object Object]] once per late squad. *)
Theorem display_ignores_rows (strftime_s : string -> option Z)
    (table : list MergeRequestData) (projectId : Z)
    (startDate endDate : option string) (commentThreshold : option Q) :
  displayMergeRequestStats strftime_s table projectId startDate endDate commentThreshold =
  app [nl ++ "----- Merge Request Statistics (" ++ date_range_text startDate endDate ++ ") -----";
   "Total MRs: undefined";
   "Merged MRs: undefined (0%)";
   "Average time to first comment: N/A";
   "Average time to approval: N/A";
   "Average time to merge: N/A"]
  (app
  match commentThreshold with
  | Some t =>
      [nl ++ "MRs with first comment after " ++ formatTime (FNumber t) ++ ": "
         ++ String.concat ","
              (repeat "[object Object]"
                 (length (countMrsWithLateFirstComment strftime_s projectId t
                            startDate endDate table)))
         ++ " (0%)"]
  | None => []
  end
  ["------------------------------------"]).
Proof.
  unfold displayMergeRequestStats. cbv zeta.
  destruct commentThreshold as [t|]; [|reflexivity].
  unfold rows_to_string. rewrite map_const. reflexivity.
Qed.

(* ================================================================== *)
(** ** update_squads.sql *)

(** [col IN (...)] on a NOT NULL text column. *)
Definition sql_in (s : string) (l : list string) : bool := existsb (String.eqb s) l.

(** The row with its [squad] column set. *)
Definition with_squad (v : option string) (r : MergeRequestData) : MergeRequestData :=
  {| id := id r; project_id := project_id r; title := title r;
     description := description r; created_at := created_at r;
     updated_at := updated_at r; state := state r; author_id := author_id r;
     author_username := author_username r; first_comment_at := first_comment_at r;
     approved_at := approved_at r; merged_at := merged_at r; squad := v |}.

(** The first UPDATE: [SET squad = 'CMS' WHERE author_username IN (...)]. *)
Definition update_cms_row (r : MergeRequestData) : MergeRequestData :=
  if sql_in (author_username r)
       ["miduddin.wartek"; "alvin.yaputra"; "qoyyim"; "sangbas-wartek"; "burhan-wartek"]
  then with_squad (Some "CMS") r else r.

(** The second UPDATE: [SET squad = 'WEB' WHERE author_username NOT IN
    (...) AND squad IS NULL]. *)
Definition update_web_row (r : MergeRequestData) : MergeRequestData :=
  if negb (sql_in (author_username r)
             ["miduddin.wartek"; "alvin.yaputra"; "qoyyim"; "sangbas-wartek";
              "burhan-wartek"; "ikhsan.hari"])
     && negb (is_some (squad r))
  then with_squad (Some "WEB") r else r.

(** The two statements in order, over the rows of [merge_requests]. *)
Definition update_squads (table : list MergeRequestData) : list MergeRequestData :=
  map update_web_row (map update_cms_row table).

Lemma with_squad_author (v : option string) (r : MergeRequestData) :
  author_username (with_squad v r) = author_username r.
Proof. reflexivity. Qed.

Lemma with_squad_twice (v w : option string) (r : MergeRequestData) :
  with_squad v (with_squad w r) = with_squad v r.
Proof. reflexivity. Qed.

Lemma with_squad_same (r : MergeRequestData) : with_squad (squad r) r = r.
Proof. destruct r; reflexivity. Qed.

Lemma row_ext (a b : MergeRequestData) :
  with_squad None a = with_squad None b -> squad a = squad b -> a = b.
Proof.
  destruct a, b; cbn. intros H Hs. injection H as -> -> -> -> -> -> -> -> -> -> -> ->.
  now subst.
Qed.

Lemma cms_in_web_list (a : string) :
  sql_in a ["miduddin.wartek"; "alvin.yaputra"; "qoyyim"; "sangbas-wartek"; "burhan-wartek"]
    = true ->
  sql_in a ["miduddin.wartek"; "alvin.yaputra"; "qoyyim"; "sangbas-wartek";
            "burhan-wartek"; "ikhsan.hari"] = true.
Proof. unfold sql_in. cbn [existsb]. rewrite !orb_true_iff. tauto. Qed.

(** The new [squad] of one row of the script. *)
Lemma update_squads_row (r : MergeRequestData) :
  let r' := update_web_row (update_cms_row r) in
  with_squad None r' = with_squad None r /\
  (sql_in (author_username r)
     ["miduddin.wartek"; "alvin.yaputra"; "qoyyim"; "sangbas-wartek"; "burhan-wartek"] = true ->
   squad r' = Some "CMS") /\
  (sql_in (author_username r)
     ["miduddin.wartek"; "alvin.yaputra"; "qoyyim"; "sangbas-wartek"; "burhan-wartek"] = false ->
   author_username r <> "ikhsan.hari" ->
   squad r' = match squad r with Some s => Some s | None => Some "WEB" end) /\
  (author_username r = "ikhsan.hari" -> squad r' = squad r).
Proof.
  intros r'. unfold r', update_web_row, update_cms_row.
  destruct (sql_in (author_username r) _) eqn:Hc.
  - rewrite with_squad_author, (cms_in_web_list _ Hc). cbn.
    split; [reflexivity|]. split; [reflexivity|]. split; [discriminate|].
    intros Ha. rewrite Ha in Hc. discriminate.
  - assert (Hw : forall a, sql_in a ["miduddin.wartek"; "alvin.yaputra"; "qoyyim";
                                     "sangbas-wartek"; "burhan-wartek"] = false ->
                 sql_in a ["miduddin.wartek"; "alvin.yaputra"; "qoyyim"; "sangbas-wartek";
                           "burhan-wartek"; "ikhsan.hari"] = String.eqb a "ikhsan.hari").
    { intros a. unfold sql_in. cbn [existsb]. rewrite !orb_false_r.
      destruct (String.eqb a "miduddin.wartek"), (String.eqb a "alvin.yaputra"),
        (String.eqb a "qoyyim"), (String.eqb a "sangbas-wartek"),
        (String.eqb a "burhan-wartek"); cbn; congruence. }
    rewrite (Hw _ Hc). split; [|split; [discriminate|split]].
    + destruct (negb _ && _); reflexivity.
    + intros _ Hne. apply String.eqb_neq in Hne. rewrite Hne.
      destruct (squad r) as [s|] eqn:Hs; cbn; [exact Hs|reflexivity].
    + intros Ha. rewrite Ha. reflexivity.
Qed.

(** The script changes only the [squad] column; afterwards every row not
    authored by ikhsan.hari has a squad, CMS authors have CMS whatever they
    had, a squad already set on any other author is kept, and ikhsan.hari's
    rows are left as they were. Running it twice is running it once. *)
Theorem update_squads_effect (table : list MergeRequestData) :
  map (with_squad None) (update_squads table) = map (with_squad None) table /\
  Forall2 (fun r r' =>
    (author_username r <> "ikhsan.hari" -> squad r' <> None) /\
    (author_username r = "ikhsan.hari" -> squad r' = squad r) /\
    (sql_in (author_username r)
       ["miduddin.wartek"; "alvin.yaputra"; "qoyyim"; "sangbas-wartek"; "burhan-wartek"]
       = true -> squad r' = Some "CMS") /\
    (sql_in (author_username r)
       ["miduddin.wartek"; "alvin.yaputra"; "qoyyim"; "sangbas-wartek"; "burhan-wartek"]
       = false -> squad r <> None -> squad r' = squad r))
    table (update_squads table) /\
  update_squads (update_squads table) = update_squads table.
Proof.
  unfold update_squads. rewrite !map_map. split; [|split].
  - apply map_ext. intros r. apply (update_squads_row r).
  - induction table as [|r table IH]; constructor; [|exact IH].
    destruct (update_squads_row r) as (_ & Hcms & Hother & Hik).
    destruct (sql_in (author_username r) _) eqn:Hc.
    + split; [rewrite (Hcms eq_refl); discriminate|]. split; [|split; [auto|discriminate]].
      intros Ha. rewrite Ha in Hc. discriminate.
    + split; [|split; [exact Hik|split; [discriminate|]]].
      * intros Hne. rewrite (Hother eq_refl Hne). destruct (squad r); discriminate.
      * intros _ Hs. destruct (String.eqb_spec (author_username r) "ikhsan.hari") as [Ha|Hne].
        -- exact (Hik Ha).
        -- rewrite (Hother eq_refl Hne). destruct (squad r); [reflexivity|congruence].
  - apply map_ext. intros r.
    destruct (update_squads_row r) as (Heq & Hcms & Hother & Hik).
    set (r' := update_web_row (update_cms_row r)) in *.
    assert (Ha : author_username r' = author_username r).
    { rewrite <- (with_squad_author None r'), <- (with_squad_author None r). now rewrite Heq. }
    destruct (update_squads_row r') as (Heq' & Hcms' & Hother' & Hik').
    rewrite Ha in Hcms', Hother', Hik'.
    apply row_ext; [exact Heq'|].
    destruct (sql_in (author_username r) _) eqn:Hc.
    + now rewrite (Hcms' eq_refl), (Hcms eq_refl).
    + destruct (String.eqb_spec (author_username r) "ikhsan.hari") as [Hi|Hne].
      * exact (Hik' Hi).
      * rewrite (Hother' eq_refl Hne), (Hother eq_refl Hne). destruct (squad r); reflexivity.
Qed.
